(** * GlassBoard drawing and history engine

    A shallow embedding of [src/components/Board.tsx]: the canvas surface,
    the bounded undo history, and the pointer/text handlers of the [Board]
    component, followed by the properties of the engine that the
    specification states.

    Conventions.
    - React state ([useState]) is a record [Board]; each handler and effect
      is a function on that record.  The props [tool] and [settings] are
      arguments of the handlers that read them.
    - The HTML canvas is a record [Canvas]: its bitmap, its drawing state
      (stroke style, composite operation, ...) and its current path.
    - JavaScript numbers and the browser's rasteriser are not part of the
      repository; they are interfaces ([JsNumber], [Rasterizer]) and every
      result holds for all their implementations. *)

From Stdlib Require Import ZArith NArith String Lia.
From stdpp Require Import base list.

Local Open Scope nat_scope.

(* ------------------------------------------------------------------ *)
(** ** Pixels and image data *)

(** One RGBA pixel of an [ImageData] buffer, four bytes. *)
Record Pixel := RGBA { red : N; green : N; blue : N; alpha : N }.

Definition transparent : Pixel := RGBA 0 0 0 0.

(** [ImageData]: dimensions and the row-major pixel array. *)
Record ImageData := mkImageData {
  img_width : nat;
  img_height : nat;
  img_data : list Pixel
}.

(** The pixel array has one entry per pixel of the rectangle. *)
Definition wf_image (img : ImageData) : Prop :=
  length (img_data img) = img_width img * img_height img.

(** A freshly allocated bitmap is transparent black everywhere. *)
Definition blank (w h : nat) : ImageData :=
  mkImageData w h (replicate (w * h) transparent).

(** Width and height of an image. *)
Definition dims (img : ImageData) : nat * nat :=
  (img_width img, img_height img).

(** The pixel in column [col] of row [row], if it lies inside the image. *)
Definition pixel_at (img : ImageData) (col row : nat) : option Pixel :=
  if (col <? img_width img) && (row <? img_height img)
  then img_data img !! (row * img_width img + col)
  else None.

(** [putImageData(img, 0, 0)] on a bitmap: every pixel of the bitmap that the
    image covers is overwritten by the image's pixel, whatever the drawing
    state; the rest of the bitmap is left alone and the part of the image
    outside the bitmap is dropped. *)
Definition blit (img dst : ImageData) : ImageData :=
  mkImageData (img_width dst) (img_height dst)
    (imap (fun i old =>
             match pixel_at img (i mod img_width dst) (i / img_width dst) with
             | Some p => p
             | None => old
             end) (img_data dst)).

(* ------------------------------------------------------------------ *)
(** ** types.ts *)

Inductive ToolType :=
  | pen | line | dashed | circle | ellipse | rect | triangle | axis
  | eraser | text.

Definition ToolType_eqb (a b : ToolType) : bool :=
  match a, b with
  | pen, pen | line, line | dashed, dashed | circle, circle
  | ellipse, ellipse | rect, rect | triangle, triangle | axis, axis
  | eraser, eraser | text, text => true
  | _, _ => false
  end.

(** JavaScript's [number] with the arithmetic and the [Math] functions that
    the board uses. *)
Class JsNumber (num : Type) := {
  lit : Z -> num;
  num_add : num -> num -> num;
  num_sub : num -> num -> num;
  num_mul : num -> num -> num;
  num_div : num -> num -> num;
  Math_abs : num -> num;
  Math_sqrt : num -> num;
  Math_cos : num -> num;
  Math_sin : num -> num;
  Math_atan2 : num -> num -> num;
  Math_pow : num -> num -> num;
  Math_PI : num
}.

Record Point {num : Type} := mkPoint { x : num; y : num }.
Arguments Point : clear implicits.
Arguments mkPoint {num}.

Record DrawingSettings {num : Type} := mkSettings {
  color : string;
  width : num;
  opacity : num
}.
Arguments DrawingSettings : clear implicits.
Arguments mkSettings {num}.

(** A JavaScript string as its UTF-16 code units. *)
Definition JsString := list N.

(* ------------------------------------------------------------------ *)
(** ** The 2D rendering context *)

Inductive CompositeOp := source_over | destination_out.
Inductive LineCap := cap_butt | cap_round.
Inductive LineJoin := join_miter | join_round.
Inductive TextBaseline := baseline_alphabetic | baseline_top.

(** The part of the drawing state of a [CanvasRenderingContext2D] that the
    board reads or writes, plus [globalAlpha], which it never writes. *)
Record DrawState {num : Type} := mkDrawState {
  strokeStyle : string;
  fillStyle : string;
  lineWidth : num;
  lineCap : LineCap;
  lineJoin : LineJoin;
  lineDash : list num;
  globalCompositeOperation : CompositeOp;
  globalAlpha : num;
  font : string;
  textBaseline : TextBaseline
}.
Arguments DrawState : clear implicits.
Arguments mkDrawState {num}.

(** Segments of the current path, in the order they were added. *)
Inductive PathCmd {num : Type} :=
  | MoveTo (px py : num)
  | LineTo (px py : num)
  | Arc (cx cy radius startAngle endAngle : num)
  | Ellipse (cx cy radiusX radiusY rotation startAngle endAngle : num)
  | ClosePath.
Arguments PathCmd : clear implicits.

(** The calls that put paint on the bitmap. *)
Inductive PaintOp {num : Type} :=
  | Stroke (path : list (PathCmd num))
  | StrokeRect (px py w h : num)
  | FillText (txt : JsString) (px py : num).
Arguments PaintOp : clear implicits.

(** The browser's rasteriser.  Painting composites, pixel by pixel, the
    coverage of the shape with what the bitmap holds: the new value of the
    pixel at column [col], row [row] is a function of the drawing state, the
    shape and the old value. *)
Class Rasterizer (num : Type) := {
  rasterize : DrawState num -> PaintOp num -> nat -> nat -> Pixel -> Pixel
}.

Record Canvas {num : Type} := mkCanvas {
  bitmap : ImageData;
  state : DrawState num;
  path : list (PathCmd num)
}.
Arguments Canvas : clear implicits.
Arguments mkCanvas {num}.

Section Engine.
Context {num : Type} `{!JsNumber num} `{!Rasterizer num}.

(* ---------------------------------------------------------------- *)
(** ** Canvas API *)

(** Default drawing state of a new (or re-sized) 2D context. *)
Definition default_state : DrawState num :=
  mkDrawState "#000000"%string "#000000"%string (lit 1) cap_butt join_miter []
              source_over (lit 1) "10px sans-serif"%string
              baseline_alphabetic.

Definition with_state (f : DrawState num -> DrawState num)
    (ctx : Canvas num) : Canvas num :=
  mkCanvas (bitmap ctx) (f (state ctx)) (path ctx).

Definition with_bitmap (f : ImageData -> ImageData)
    (ctx : Canvas num) : Canvas num :=
  mkCanvas (f (bitmap ctx)) (state ctx) (path ctx).

Definition add_segment (seg : PathCmd num) (ctx : Canvas num) : Canvas num :=
  mkCanvas (bitmap ctx) (state ctx) (path ctx ++ [seg]).

(** Property setters [ctx.strokeStyle = v], [ctx.lineWidth = v], ... *)
Definition set_strokeStyle (v : string) : Canvas num -> Canvas num :=
  with_state (fun s =>
    mkDrawState v (fillStyle s) (lineWidth s) (lineCap s) (lineJoin s)
      (lineDash s) (globalCompositeOperation s) (globalAlpha s) (font s)
      (textBaseline s)).

Definition set_fillStyle (v : string) : Canvas num -> Canvas num :=
  with_state (fun s =>
    mkDrawState (strokeStyle s) v (lineWidth s) (lineCap s) (lineJoin s)
      (lineDash s) (globalCompositeOperation s) (globalAlpha s) (font s)
      (textBaseline s)).

Definition set_lineWidth (v : num) : Canvas num -> Canvas num :=
  with_state (fun s =>
    mkDrawState (strokeStyle s) (fillStyle s) v (lineCap s) (lineJoin s)
      (lineDash s) (globalCompositeOperation s) (globalAlpha s) (font s)
      (textBaseline s)).

Definition set_lineCap (v : LineCap) : Canvas num -> Canvas num :=
  with_state (fun s =>
    mkDrawState (strokeStyle s) (fillStyle s) (lineWidth s) v (lineJoin s)
      (lineDash s) (globalCompositeOperation s) (globalAlpha s) (font s)
      (textBaseline s)).

Definition set_lineJoin (v : LineJoin) : Canvas num -> Canvas num :=
  with_state (fun s =>
    mkDrawState (strokeStyle s) (fillStyle s) (lineWidth s) (lineCap s) v
      (lineDash s) (globalCompositeOperation s) (globalAlpha s) (font s)
      (textBaseline s)).

Definition setLineDash (v : list num) : Canvas num -> Canvas num :=
  with_state (fun s =>
    mkDrawState (strokeStyle s) (fillStyle s) (lineWidth s) (lineCap s)
      (lineJoin s) v (globalCompositeOperation s) (globalAlpha s) (font s)
      (textBaseline s)).

Definition set_globalCompositeOperation (v : CompositeOp)
    : Canvas num -> Canvas num :=
  with_state (fun s =>
    mkDrawState (strokeStyle s) (fillStyle s) (lineWidth s) (lineCap s)
      (lineJoin s) (lineDash s) v (globalAlpha s) (font s)
      (textBaseline s)).

Definition set_font (v : string) : Canvas num -> Canvas num :=
  with_state (fun s =>
    mkDrawState (strokeStyle s) (fillStyle s) (lineWidth s) (lineCap s)
      (lineJoin s) (lineDash s) (globalCompositeOperation s)
      (globalAlpha s) v (textBaseline s)).

Definition set_textBaseline (v : TextBaseline) : Canvas num -> Canvas num :=
  with_state (fun s =>
    mkDrawState (strokeStyle s) (fillStyle s) (lineWidth s) (lineCap s)
      (lineJoin s) (lineDash s) (globalCompositeOperation s)
      (globalAlpha s) (font s) v).

(** Path building. *)
Definition beginPath (ctx : Canvas num) : Canvas num :=
  mkCanvas (bitmap ctx) (state ctx) [].

Definition moveTo (px py : num) := add_segment (MoveTo px py).
Definition lineTo (px py : num) := add_segment (LineTo px py).
Definition arc (cx cy r a0 a1 : num) := add_segment (Arc cx cy r a0 a1).
Definition ellipse_path (cx cy rx ry rot a0 a1 : num) :=
  add_segment (Ellipse cx cy rx ry rot a0 a1).
Definition closePath := add_segment ClosePath.

(** Painting: every pixel of the bitmap goes through the rasteriser with
    the drawing state of the moment of the call. *)
Definition paint (op : PaintOp num) (ctx : Canvas num) : Canvas num :=
  with_bitmap (fun bm =>
    mkImageData (img_width bm) (img_height bm)
      (imap (fun i old =>
               rasterize (state ctx) op
                         (i mod img_width bm) (i / img_width bm) old)
            (img_data bm))) ctx.

Definition stroke (ctx : Canvas num) : Canvas num :=
  paint (Stroke (path ctx)) ctx.

Definition strokeRect (px py w h : num) : Canvas num -> Canvas num :=
  paint (StrokeRect px py w h).

Definition fillText (txt : JsString) (px py : num)
    : Canvas num -> Canvas num :=
  paint (FillText txt px py).

(** [ctx.clearRect(0, 0, canvas.width, canvas.height)]: the whole bitmap
    becomes transparent. *)
Definition clearRect : Canvas num -> Canvas num :=
  with_bitmap (fun bm =>
    mkImageData (img_width bm) (img_height bm)
      ((fun _ => transparent) <$> img_data bm)).

(** [ctx.getImageData(0, 0, canvas.width, canvas.height)]: a copy of the
    whole bitmap.  The call throws [IndexSizeError] when the rectangle has
    a zero side; [None] stands for the exception. *)
Definition getImageData (ctx : Canvas num) : option ImageData :=
  if (0 <? img_width (bitmap ctx)) && (0 <? img_height (bitmap ctx))
  then Some (bitmap ctx)
  else None.

(** [ctx.putImageData(img, 0, 0)]. *)
Definition putImageData (img : ImageData) : Canvas num -> Canvas num :=
  with_bitmap (blit img).

(** [canvas.width = w] and [canvas.height = h]: either assignment
    reallocates the bitmap, transparent, and resets the context. *)
Definition set_width (w : nat) (ctx : Canvas num) : Canvas num :=
  mkCanvas (blank w (img_height (bitmap ctx))) default_state [].

Definition set_height (h : nat) (ctx : Canvas num) : Canvas num :=
  mkCanvas (blank (img_width (bitmap ctx)) h) default_state [].

(* ---------------------------------------------------------------- *)
(** ** History stack *)

(** [prev => [...prev.slice(-19), currentData]] *)
Definition pushHistory (currentData : ImageData) (prev : list ImageData)
    : list ImageData :=
  drop (length prev - 19) prev ++ [currentData].

(** The last [n] entries of a list, [l.slice(-n)] for positive [n]. *)
Definition recent {A : Type} (n : nat) (l : list A) : list A :=
  drop (length l - n) l.

(** [prev => prev.slice(0, -1)] *)
Definition popHistory (prev : list ImageData) : list ImageData :=
  take (length prev - 1) prev.

(* ---------------------------------------------------------------- *)
(** ** Text input *)

(** White space and line terminators of ECMAScript, which
    [String.prototype.trim] strips. *)
Definition isWhiteSpace (c : N) : bool :=
  ((c =? 9) || (c =? 10) || (c =? 11) || (c =? 12) || (c =? 13)
   || (c =? 32) || (c =? 160) || (c =? 5760)
   || ((8192 <=? c) && (c <=? 8202))
   || (c =? 8232) || (c =? 8233) || (c =? 8239) || (c =? 8287)
   || (c =? 12288) || (c =? 65279))%N.

Fixpoint trimStart (s : JsString) : JsString :=
  match s with
  | c :: rest => if isWhiteSpace c then trimStart rest else s
  | [] => []
  end.

Definition trimEnd (s : JsString) : JsString :=
  reverse (trimStart (reverse s)).

Definition trim (s : JsString) : JsString := trimEnd (trimStart s).

(** Truthiness of a string: non-empty. *)
Definition truthy (s : JsString) : bool :=
  match s with [] => false | _ :: _ => true end.

(* ---------------------------------------------------------------- *)
(** ** Component state *)

(** The [useState] cells of [Board] and the canvas behind [canvasRef].
    The ref is attached for as long as the component is mounted and a
    canvas always yields a 2D context, so the [null] guards of the
    handlers never fire and are not modelled. *)
Record Board := mkBoard {
  canvas : Canvas num;
  isDrawing : bool;
  startPos : option (Point num);
  snapshot : option ImageData;
  history : list ImageData;
  typingPos : option (Point num)
}.

(** How a handler that calls [getImageData] ends: it returns, or the
    exception escapes it.  Either way the component goes on with the state
    updates that were enqueued. *)
Inductive Outcome :=
  | Done (b : Board)
  | Thrown (b : Board).

Definition board_of (o : Outcome) : Board :=
  match o with Done b | Thrown b => b end.

Definition set_canvas (ctx : Canvas num) (b : Board) : Board :=
  mkBoard ctx (isDrawing b) (startPos b) (snapshot b) (history b)
          (typingPos b).

Definition setTypingPos (v : option (Point num)) (b : Board) : Board :=
  mkBoard (canvas b) (isDrawing b) (startPos b) (snapshot b) (history b) v.

(* ---------------------------------------------------------------- *)
(** ** Effects *)

(** "Reset typing if tool changes". *)
Definition toolEffect (b : Board) : Board := setTypingPos None b.

(** The [ResizeObserver] callback; [w] and [h] are the sides of the
    container as the canvas stores them. *)
Definition resize (w h : nat) (b : Board) : Board :=
  let content :=
    if (0 <? img_width (bitmap (canvas b)))
       && (0 <? img_height (bitmap (canvas b)))
    then getImageData (canvas b)
    else None in
  let ctx := set_height h (set_width w (canvas b)) in
  let ctx := match content with
             | Some img => putImageData img ctx
             | None => ctx
             end in
  set_canvas ctx b.

(** "Handle Clear": the effect on [clearTrigger]. *)
Definition clearEffect (b : Board) : Outcome :=
  match getImageData (canvas b) with
  | None => Thrown b
  | Some currentData =>
      Done (mkBoard (clearRect (canvas b)) (isDrawing b) (startPos b)
                    (snapshot b) (pushHistory currentData (history b))
                    (typingPos b))
  end.

(** "Handle Undo": the effect on [undoTrigger].  The guard and
    [previousState] read the [history] of the render that created the
    effect, [rendered]; [setHistory] updates the current state [b]. *)
Definition undoEffect (rendered b : Board) : Board :=
  match last (history rendered) with
  | None => b
  | Some previousState =>
      mkBoard (putImageData previousState (canvas b)) (isDrawing b)
              (startPos b) (snapshot b) (popHistory (history b))
              (typingPos b)
  end.

(** An undo request between two renders: the effect sees the state it
    updates. *)
Definition undo (b : Board) : Board := undoEffect b b.

(* ---------------------------------------------------------------- *)
(** ** Pointer handlers *)

(** [pos] is [getMousePos(e)]. *)
Definition startDrawing (tool : ToolType) (settings : DrawingSettings num)
    (pos : Point num) (b : Board) : Outcome :=
  if ToolType_eqb tool text then
    (* setTimeout(() => setTypingPos(pos), 0) *)
    Done (setTypingPos (Some pos) b)
  else
    match getImageData (canvas b) with
    | None => Thrown b
    | Some currentData =>
        let ctx := canvas b in
        let ctx := beginPath ctx in
        let ctx := moveTo (x pos) (y pos) ctx in
        let ctx := set_strokeStyle (color settings) ctx in
        let ctx := set_lineWidth (width settings) ctx in
        let ctx := set_lineCap cap_round ctx in
        let ctx := set_lineJoin join_round ctx in
        let ctx := setLineDash [] ctx in
        let ctx := if ToolType_eqb tool eraser
                   then set_globalCompositeOperation destination_out ctx
                   else set_globalCompositeOperation source_over ctx in
        let ctx := if ToolType_eqb tool dashed
                   then setLineDash [num_mul (width settings) (lit 3);
                                     num_mul (width settings) (lit 2)] ctx
                   else ctx in
        Done (mkBoard ctx true (Some pos) (Some currentData)
                      (pushHistory currentData (history b)) (typingPos b))
    end.

Definition drawArrowHead (from to : Point num) (ctx : Canvas num)
    : Canvas num :=
  let headLength := lit 15 in
  let dx := num_sub (x to) (x from) in
  let dy := num_sub (y to) (y from) in
  let angle := Math_atan2 dy dx in
  let ctx := beginPath ctx in
  let ctx := moveTo (x to) (y to) ctx in
  let ctx :=
    lineTo
      (num_sub (x to)
         (num_mul headLength
            (Math_cos (num_sub angle (num_div Math_PI (lit 6))))))
      (num_sub (y to)
         (num_mul headLength
            (Math_sin (num_sub angle (num_div Math_PI (lit 6)))))) ctx in
  let ctx := moveTo (x to) (y to) ctx in
  let ctx :=
    lineTo
      (num_sub (x to)
         (num_mul headLength
            (Math_cos (num_add angle (num_div Math_PI (lit 6))))))
      (num_sub (y to)
         (num_mul headLength
            (Math_sin (num_add angle (num_div Math_PI (lit 6)))))) ctx in
  stroke ctx.

(** The outline of the shape of [tool] from [startPos] to [currentPos]. *)
Definition drawShape (tool : ToolType) (startPos currentPos : Point num)
    (ctx : Canvas num) : Canvas num :=
  match tool with
  | line | dashed =>
      let ctx := moveTo (x startPos) (y startPos) ctx in
      let ctx := lineTo (x currentPos) (y currentPos) ctx in
      stroke ctx
  | circle =>
      let radius :=
        Math_sqrt
          (num_add
             (Math_pow (num_sub (x currentPos) (x startPos)) (lit 2))
             (Math_pow (num_sub (y currentPos) (y startPos)) (lit 2))) in
      let ctx := arc (x startPos) (y startPos) radius (lit 0)
                     (num_mul (lit 2) Math_PI) ctx in
      stroke ctx
  | rect =>
      strokeRect (x startPos) (y startPos)
                 (num_sub (x currentPos) (x startPos))
                 (num_sub (y currentPos) (y startPos)) ctx
  | ellipse =>
      let centerX := x startPos in
      let centerY := y startPos in
      let radiusX := Math_abs (num_sub (x currentPos) (x startPos)) in
      let radiusY := Math_abs (num_sub (y currentPos) (y startPos)) in
      let ctx := ellipse_path centerX centerY radiusX radiusY (lit 0)
                              (lit 0) (num_mul (lit 2) Math_PI) ctx in
      stroke ctx
  | triangle =>
      let topX := num_div (num_add (x startPos) (x currentPos)) (lit 2) in
      let topY := y startPos in
      let botY := y currentPos in
      let leftX := x startPos in
      let rightX := x currentPos in
      let ctx := moveTo topX topY ctx in
      let ctx := lineTo leftX botY ctx in
      let ctx := lineTo rightX botY ctx in
      let ctx := closePath ctx in
      stroke ctx
  | axis =>
      let centerX := num_div (num_add (x startPos) (x currentPos)) (lit 2) in
      let centerY := num_div (num_add (y startPos) (y currentPos)) (lit 2) in
      let ctx := moveTo (x startPos) centerY ctx in
      let ctx := lineTo (x currentPos) centerY ctx in
      let ctx := stroke ctx in
      let ctx := drawArrowHead (mkPoint (x startPos) centerY)
                               (mkPoint (x currentPos) centerY) ctx in
      let ctx := beginPath ctx in
      let ctx := moveTo centerX (y currentPos) ctx in
      let ctx := lineTo centerX (y startPos) ctx in
      let ctx := stroke ctx in
      drawArrowHead (mkPoint centerX (y currentPos))
                    (mkPoint centerX (y startPos)) ctx
  | pen | eraser | text => ctx
  end.

(** [currentPos] is [getMousePos(e)]. *)
Definition draw (tool : ToolType) (settings : DrawingSettings num)
    (currentPos : Point num) (b : Board) : Board :=
  match isDrawing b, startPos b with
  | true, Some startPos =>
      if ToolType_eqb tool pen || ToolType_eqb tool eraser then
        let ctx := lineTo (x currentPos) (y currentPos) (canvas b) in
        set_canvas (stroke ctx) b
      else
        match snapshot b with
        | Some snapshot =>
            let ctx := putImageData snapshot (canvas b) in
            let ctx := beginPath ctx in
            let ctx := set_globalCompositeOperation source_over ctx in
            let ctx := set_strokeStyle (color settings) ctx in
            let ctx := set_lineWidth (width settings) ctx in
            let ctx := setLineDash [] ctx in
            let ctx := if ToolType_eqb tool dashed
                       then setLineDash
                              [num_mul (width settings) (lit 3);
                               num_mul (width settings) (lit 2)] ctx
                       else ctx in
            set_canvas (drawShape tool startPos currentPos ctx) b
        | None => b
        end
  | _, _ => b
  end.

Definition stopDrawing (b : Board) : Board :=
  if isDrawing b then
    mkBoard (closePath (canvas b)) false (startPos b) None (history b)
            (typingPos b)
  else b.

(** [txt] is the value of the input that lost focus. *)
Definition handleTextComplete (settings : DrawingSettings num)
    (txt : JsString) (b : Board) : Outcome :=
  let b' := setTypingPos None b in
  match truthy (trim txt), typingPos b with
  | true, Some typingPos =>
      match getImageData (canvas b) with
      | None => Thrown b'
      | Some currentData =>
          let ctx := canvas b in
          let ctx := set_font "bold 32px sans-serif" ctx in
          let ctx := set_fillStyle (color settings) ctx in
          let ctx := set_textBaseline baseline_top ctx in
          let ctx := set_globalCompositeOperation source_over ctx in
          let ctx := fillText txt (x typingPos) (y typingPos) ctx in
          Done (mkBoard ctx (isDrawing b) (startPos b) (snapshot b)
                        (pushHistory currentData (history b)) None)
      end
  | _, _ => Done b'
  end.

(* ---------------------------------------------------------------- *)
(** ** Mounting *)

(** A canvas element without [width] and [height] attributes is 300 by
    150. *)
Definition initial_canvas : Canvas num :=
  mkCanvas (blank 300 150) default_state [].

Definition initial_board : Board :=
  mkBoard initial_canvas false None None [] None.

(** The effects of the first render, in the order of their declaration.
    They all belong to that render: the undo effect reads its [history],
    which is empty. *)
Definition mount : Board :=
  let b := toolEffect initial_board in
  let b := board_of (clearEffect b) in
  undoEffect initial_board b.
End Engine.

Arguments Board : clear implicits.
Arguments Board num : assert.
Arguments Outcome : clear implicits.
Arguments Outcome num : assert.

Section Gestures.
Context {num : Type} `{!JsNumber num} `{!Rasterizer num}.

(* ---------------------------------------------------------------- *)
(** ** Sessions and committing actions *)

(** A pointer session of [tool]: pointer-down at [down], then a move to
    each point of [moves]. *)
Definition session (tool : ToolType) (settings : DrawingSettings num)
    (down : Point num) (moves : list (Point num)) (b : Board num)
    : Board num :=
  foldl (fun acc q => draw tool settings q acc)
        (board_of (startDrawing tool settings down b)) moves.

(** The user actions that commit to the surface: the clear button; a drag
    with a drawing tool, from pointer-down to pointer-up; a click with the
    text tool followed by the completion of the input. *)
Inductive Gesture :=
  | Clear
  | Drag (tool : ToolType) (settings : DrawingSettings num)
         (down : Point num) (moves : list (Point num))
  | TypeText (settings : DrawingSettings num) (pos : Point num)
             (txt : JsString).

Definition committing (g : Gesture) : bool :=
  match g with
  | Clear => true
  | Drag tool _ _ _ => negb (ToolType_eqb tool text)
  | TypeText _ _ txt => truthy (trim txt)
  end.

Definition perform (g : Gesture) (b : Board num) : Board num :=
  match g with
  | Clear => board_of (clearEffect b)
  | Drag tool settings down moves =>
      stopDrawing (session tool settings down moves b)
  | TypeText settings pos txt =>
      board_of (handleTextComplete settings txt
                  (board_of (startDrawing text settings pos b)))
  end.

Definition perform_all (gs : list Gesture) (b : Board num) : Board num :=
  foldl (fun acc g => perform g acc) b gs.

(** The surface as it was just before each gesture of [gs]. *)
Fixpoint surfaces_before (gs : list Gesture) (b : Board num)
    : list ImageData :=
  match gs with
  | [] => []
  | g :: rest => bitmap (canvas b) :: surfaces_before rest (perform g b)
  end.

(** The surface exists: both sides are positive and the pixel array
    matches them. *)
Definition surface_ready (b : Board num) : Prop :=
  0 < img_width (bitmap (canvas b))
  /\ 0 < img_height (bitmap (canvas b))
  /\ wf_image (bitmap (canvas b)).

(** The style that [draw] sets before it outlines a shape. *)
Definition previewStyle (tool : ToolType) (settings : DrawingSettings num)
    (ctx : Canvas num) : Canvas num :=
  let ctx := set_globalCompositeOperation source_over ctx in
  let ctx := set_strokeStyle (color settings) ctx in
  let ctx := set_lineWidth (width settings) ctx in
  let ctx := setLineDash [] ctx in
  if ToolType_eqb tool dashed
  then setLineDash [num_mul (width settings) (lit 3);
                    num_mul (width settings) (lit 2)] ctx
  else ctx.

(** What holds at every point of a shape session opened at [down] on the
    surface [snap], with drawing state [st]. *)
Definition previewing (down : Point num) (snap : ImageData)
    (st : DrawState num) (b : Board num) : Prop :=
  isDrawing b = true
  /\ startPos b = Some down
  /\ snapshot b = Some snap
  /\ state (canvas b) = st
  /\ dims (bitmap (canvas b)) = dims snap
  /\ wf_image (bitmap (canvas b))
  /\ wf_image snap.

(** The same settings with another opacity. *)
Definition with_opacity (o : num) (settings : DrawingSettings num)
    : DrawingSettings num :=
  mkSettings (color settings) (width settings) o.

(** The compositing mode that a session of [tool] is to use. *)
Definition mode_of (tool : ToolType) : CompositeOp :=
  match tool with eraser => destination_out | _ => source_over end.

(** Tools that preview a shape (everything but pen, eraser and text). *)
Definition is_shape (tool : ToolType) : bool :=
  match tool with
  | line | dashed | circle | ellipse | rect | triangle | axis => true
  | pen | eraser | text => false
  end.
End Gestures.

Arguments Gesture : clear implicits.
Arguments Gesture num : assert.

(* ------------------------------------------------------------------ *)
(** ** The application around the board (App.tsx, Toolbar.tsx) *)

Section Application.
Context {num : Type} `{!JsNumber num} `{!Rasterizer num}.

(** The state of [App] that reaches the board, and the board. *)
Record App := mkApp {
  currentTool : ToolType;
  app_settings : DrawingSettings num;
  board : Board num
}.

(** What the user and the browser can do to the mounted application. *)
Inductive Event :=
  | PointerDown (pos : Point num)     (* onMouseDown, onTouchStart *)
  | PointerMove (pos : Point num)     (* onMouseMove, onTouchMove *)
  | PointerUp                         (* onMouseUp, onMouseLeave, onTouchEnd *)
  | InputBlur (txt : JsString)        (* onBlur of the text overlay *)
  | ClickClear                        (* onClear *)
  | ClickUndo                         (* onUndo *)
  | ContainerResized (w h : nat)      (* ResizeObserver *)
  | ClickTool (t : ToolType)          (* setTool *)
  | ClickColor (c : string)           (* handleColorChange *)
  | SlideWidth (w : num).             (* handleWidthChange *)

Definition step (e : Event) (a : App) : App :=
  let tool := currentTool a in
  let settings := app_settings a in
  match e with
  | PointerDown pos =>
      mkApp tool settings (board_of (startDrawing tool settings pos (board a)))
  | PointerMove pos => mkApp tool settings (draw tool settings pos (board a))
  | PointerUp => mkApp tool settings (stopDrawing (board a))
  | InputBlur txt =>
      mkApp tool settings (board_of (handleTextComplete settings txt (board a)))
  | ClickClear => mkApp tool settings (board_of (clearEffect (board a)))
  | ClickUndo => mkApp tool settings (undo (board a))
  | ContainerResized w h => mkApp tool settings (resize w h (board a))
  | ClickTool t =>
      if ToolType_eqb t tool then a
      else mkApp t settings (toolEffect (board a))
  | ClickColor c =>
      mkApp tool (mkSettings c (width settings) (opacity settings)) (board a)
  | SlideWidth w =>
      mkApp tool (mkSettings (color settings) w (opacity settings)) (board a)
  end.

(** [App] starts with the pen and white at width 4, opacity 1. *)
Definition initial_app : App :=
  mkApp pen (mkSettings "#FFFFFF" (lit 4) (lit 1)) mount.

Definition run (events : list Event) : App :=
  foldl (fun a e => step e a) initial_app events.

(** What holds of the application whatever has happened to it. *)
Definition app_invariant (a : App) : Prop :=
  wf_image (bitmap (canvas (board a)))
  /\ length (history (board a)) <= 20
  /\ globalAlpha (state (canvas (board a))) = lit 1
  /\ opacity (app_settings a) = lit 1.
End Application.

Arguments App : clear implicits.
Arguments App num : assert.
Arguments Event : clear implicits.
Arguments Event num : assert.

(* ------------------------------------------------------------------ *)
(** ** A platform to run the engine on

    Numbers are the terms of the arithmetic the board performs, and the
    rasteriser puts one dot of ink on each vertex of a path whose
    coordinates are integers.  Concrete runs of the engine below use it. *)


Inductive Term :=
  | TLit (z : Z)
  | TAdd (a b : Term) | TSub (a b : Term) | TMul (a b : Term)
  | TDiv (a b : Term)
  | TAbs (a : Term) | TSqrt (a : Term) | TCos (a : Term) | TSin (a : Term)
  | TAtan2 (a b : Term) | TPow (a b : Term)
  | TPi.

#[global] Instance Term_number : JsNumber Term := {|
  lit := TLit;
  num_add := TAdd; num_sub := TSub; num_mul := TMul; num_div := TDiv;
  Math_abs := TAbs; Math_sqrt := TSqrt; Math_cos := TCos; Math_sin := TSin;
  Math_atan2 := TAtan2; Math_pow := TPow; Math_PI := TPi
|}.

(** The integer value of a term of the ring fragment. *)
Fixpoint eval (t : Term) : option Z :=
  match t with
  | TLit z => Some z
  | TAdd a b =>
      match eval a, eval b with Some u, Some v => Some (u + v)%Z | _, _ => None end
  | TSub a b =>
      match eval a, eval b with Some u, Some v => Some (u - v)%Z | _, _ => None end
  | TMul a b =>
      match eval a, eval b with Some u, Some v => Some (u * v)%Z | _, _ => None end
  | TAbs a =>
      match eval a with Some u => Some (Z.abs u) | None => None end
  | _ => None
  end.

Definition at_pixel (px py : Term) (col row : nat) : bool :=
  match eval px, eval py with
  | Some u, Some v => ((u =? Z.of_nat col) && (v =? Z.of_nat row))%Z
  | _, _ => false
  end.

Definition on_vertex (col row : nat) (seg : PathCmd Term) : bool :=
  match seg with
  | MoveTo px py | LineTo px py => at_pixel px py col row
  | _ => false
  end.

Definition covers (op : PaintOp Term) (col row : nat) : bool :=
  match op with
  | Stroke segs => existsb (on_vertex col row) segs
  | StrokeRect px py _ _ => at_pixel px py col row
  | FillText _ px py => at_pixel px py col row
  end.

(** White ink: opaque when the alpha of the drawing state is 1,
    half-transparent otherwise. *)
Definition ink (st : DrawState Term) : Pixel :=
  match eval (globalAlpha st) with
  | Some 1%Z => RGBA 255 255 255 255
  | _ => RGBA 255 255 255 128
  end.

#[global] Instance dot_rasterizer : Rasterizer Term := {|
  rasterize st op col row old :=
    if covers op col row then
      match globalCompositeOperation st with
      | source_over => ink st
      | destination_out => transparent
      end
    else old
|}.

(** An idle board on a surface of 4 by 3 pixels with nothing to undo. *)
Definition small_board : Board Term :=
  mkBoard (mkCanvas (blank 4 3) default_state []) false None None [] None.

Definition white : DrawingSettings Term :=
  mkSettings "#FFFFFF" (TLit 4) (TLit 1).

(** The same settings at half opacity. *)
Definition white_half : DrawingSettings Term :=
  mkSettings "#FFFFFF" (TLit 4) (TDiv (TLit 1) (TLit 2)).

Definition pt (u v : Z) : Point Term := mkPoint (TLit u) (TLit v).

(** The letter "A". *)
Definition letter_A : JsString := [65%N].

(* ------------------------------------------------------------------ *)
(** ** The random picker of App.tsx *)

Section RandomPicker.
Context {num : Type}.

(** [isSpinning], [pickedNumber], and the interval that [handleRandomPick]
    starts: [Some counter] while it runs, with the [counter] of its closure;
    [None] once [clearInterval] has been called or before any spin. *)
Record Picker := mkPicker {
  isSpinning : bool;
  pickedNumber : option num;
  interval : option nat
}.

Definition maxIterations : nat := 20.

(** The click on the spin button. *)
Definition handleRandomPick (pk : Picker) : Picker :=
  if isSpinning pk then pk
  else mkPicker true (pickedNumber pk) (Some 0).

(** One call of the interval callback; [drawn] is the value of
    [Math.floor(Math.random() * classSize) + 1] in that call. *)
Definition tick (drawn : num) (pk : Picker) : Picker :=
  match interval pk with
  | None => pk
  | Some counter =>
      let counter := S counter in
      if maxIterations <? counter
      then mkPicker false (Some drawn) None
      else mkPicker (isSpinning pk) (Some drawn) (Some counter)
  end.

Definition ticks (draws : list num) (pk : Picker) : Picker :=
  foldl (fun acc drawn => tick drawn acc) pk draws.
End RandomPicker.

Arguments Picker : clear implicits.
Arguments mkPicker {num}.

(* ------------------------------------------------------------------ *)
(** ** The analysis service: the payload of a data URL *)

(** [s.split(sep)] for a separator of one code unit: the segments between
    the occurrences of [sep], at least one segment. *)
Fixpoint split (sep : N) (s : JsString) : list JsString :=
  match s with
  | [] => [[]]
  | c :: rest =>
      if (c =? sep)%N then [] :: split sep rest
      else match split sep rest with
           | seg :: segs => (c :: seg) :: segs
           | [] => [[c]]
           end
  end.

(** The code unit of the comma. *)
Definition comma : N := 44.

(** [imageBase64.split(',')[1] || imageBase64], the first step of
    [analyzeBoardContent]. *)
Definition cleanBase64 (imageBase64 : JsString) : JsString :=
  match split comma imageBase64 !! 1 with
  | Some seg => if truthy seg then seg else imageBase64
  | None => imageBase64
  end.

(** The code units of an ASCII string. *)
Definition units (s : string) : JsString :=
  Ascii.N_of_ascii <$> String.list_ascii_of_string s.

(* ------------------------------------------------------------------ *)
(** ** Vocabulary of the further properties *)

Section Vocabulary.
Context {num : Type} `{!JsNumber num} `{!Rasterizer num}.

(** The dash pattern of a tool under given settings. *)
Definition dash_of (tool : ToolType) (settings : DrawingSettings num)
    : list num :=
  if ToolType_eqb tool dashed
  then [num_mul (width settings) (lit 3); num_mul (width settings) (lit 2)]
  else [].

(** The drawing state of a session of [tool] under [settings] that was
    opened on a context in state [st]. *)
Definition session_style (tool : ToolType) (settings : DrawingSettings num)
    (st : DrawState num) : DrawState num :=
  mkDrawState (color settings) (fillStyle st) (width settings) cap_round
              join_round (dash_of tool settings) (mode_of tool)
              (globalAlpha st) (font st) (textBaseline st).

(** A stroke whose moves each happen under settings of their own. *)
Definition moves_under (tool : ToolType)
    (moves : list (DrawingSettings num * Point num)) (b : Board num)
    : Board num :=
  foldl (fun acc sq => draw tool sq.1 sq.2 acc) b moves.

Definition is_freehand (tool : ToolType) : bool :=
  match tool with pen | eraser => true | _ => false end.

End Vocabulary.

(* ------------------------------------------------------------------ *)
(** ** More boards and inputs for concrete runs *)

(** An idle board on a surface of 2 by 2 pixels. *)
Definition tiny_board : Board Term :=
  mkBoard (mkCanvas (blank 2 2) default_state []) false None None [] None.

(** The small board after a pen stroke from (1,1) to (2,2). *)
Definition stroke_board : Board Term :=
  perform (Drag pen white (pt 1 1) [pt 2 2]) small_board.

(** The tiny board after a pen stroke, in a container grown to 4 by 3. *)
Definition grown_board : Board Term :=
  resize 4 3 (perform (Drag pen white (pt 0 0) [pt 1 1]) tiny_board).



(** Red at width 8. *)
Definition red_wide : DrawingSettings Term :=
  mkSettings "#EF4444" (TLit 8) (TLit 1).


(** The application with the pen on the small board. *)
Definition small_app : App Term := mkApp pen white small_board.

Definition data_header : JsString := units "data:image/png;base64".
Definition data_payload : JsString := units "iVBORw0KGgo=".

(* ------------------------------------------------------------------ *)
(** * Properties *)

(** ** The history stack as a list *)

Section HistoryFacts.
Context {A : Type}.
Implicit Types (l k : list A) (a : A).

Lemma recent_length n l : length (recent n l) = min n (length l).
Proof. unfold recent. rewrite length_drop. lia. Qed.

Lemma recent_all n l : length l <= n -> recent n l = l.
Proof.
  intros Hle. unfold recent.
  replace (length l - n) with 0 by lia. apply drop_0.
Qed.

Lemma recent_snoc n l a : recent (S n) (l ++ [a]) = recent n l ++ [a].
Proof.
  unfold recent. rewrite length_app.
  replace (length l + length [a] - S n) with (length l - n)
    by (cbn [length]; lia).
  rewrite drop_app.
  replace (length l - n - length l) with 0 by lia.
  by rewrite drop_0.
Qed.

(** Trimming to the last [n] entries early does not change the last [n]
    entries of a longer list. *)
Lemma recent_app_recent n l k :
  recent n (recent n l ++ k) = recent n (l ++ k).
Proof.
  destruct (decide (length l <= n)) as [Hle|Hgt].
  - by rewrite (recent_all n l).
  - unfold recent at 1 3.
    rewrite !length_app, recent_length.
    replace (min n (length l) + length k - n) with (length k) by lia.
    unfold recent.
    assert (drop (length l - n) (l ++ k) = drop (length l - n) l ++ k) as <-.
    { rewrite drop_app.
      replace (length l - n - length l) with 0 by lia.
      by rewrite drop_0. }
    rewrite drop_drop. f_equal. lia.
Qed.

Lemma recent_app_long n l k : n <= length k -> recent n (l ++ k) = recent n k.
Proof.
  intros Hle. unfold recent. rewrite length_app, drop_app.
  rewrite (drop_ge l) by lia. simpl. f_equal. lia.
Qed.
End HistoryFacts.

Lemma pushHistory_recent x h : pushHistory x h = recent 20 (h ++ [x]).
Proof. by rewrite recent_snoc. Qed.

Lemma pushHistory_length x h :
  length (pushHistory x h) = min 20 (S (length h)).
Proof.
  rewrite pushHistory_recent, recent_length, length_app. cbn [length]. lia.
Qed.

Lemma pushHistory_last x h : last (pushHistory x h) = Some x.
Proof. unfold pushHistory. apply last_snoc. Qed.

Lemma popHistory_snoc h x : popHistory (h ++ [x]) = h.
Proof.
  unfold popHistory. rewrite length_app.
  replace (length h + length [x] - 1) with (length h) by (cbn [length]; lia).
  apply take_app_length.
Qed.

Lemma popHistory_pushHistory x h :
  popHistory (pushHistory x h) = recent 19 h.
Proof. unfold pushHistory. apply popHistory_snoc. Qed.

(** ** Bitmaps *)

Lemma index_col w col row : col < w -> (row * w + col) mod w = col.
Proof.
  intros Hlt. rewrite Nat.add_comm, Nat.Div0.mod_add.
  by apply Nat.mod_small.
Qed.

Lemma index_row w col row : col < w -> (row * w + col) / w = row.
Proof.
  intros Hlt. rewrite Nat.add_comm, Nat.div_add by lia.
  rewrite Nat.div_small by done. done.
Qed.

Lemma index_split w i : (i / w) * w + i mod w = i.
Proof. pose proof (Nat.div_mod_eq i w). lia. Qed.

Lemma index_in_bounds w h i : i < w * h -> i mod w < w /\ i / w < h.
Proof.
  intros Hlt. assert (w <> 0) by (intros ->; simpl in Hlt; lia). split.
  - by apply Nat.mod_upper_bound.
  - by apply Nat.Div0.div_lt_upper_bound.
Qed.

Lemma blank_wf w h : wf_image (blank w h).
Proof. unfold wf_image. simpl. apply length_replicate. Qed.

Lemma pixel_at_wf img i :
  wf_image img -> i < length (img_data img) ->
  pixel_at img (i mod img_width img) (i / img_width img) = img_data img !! i.
Proof.
  unfold wf_image, pixel_at. intros Hwf Hlt. rewrite Hwf in Hlt.
  destruct (index_in_bounds _ _ _ Hlt) as [Hc Hr].
  apply Nat.ltb_lt in Hc, Hr. rewrite Hc, Hr. simpl.
  by rewrite index_split.
Qed.

Lemma blit_width img dst : img_width (blit img dst) = img_width dst.
Proof. done. Qed.

Lemma blit_height img dst : img_height (blit img dst) = img_height dst.
Proof. done. Qed.

Lemma blit_wf img dst : wf_image dst -> wf_image (blit img dst).
Proof. unfold wf_image. simpl. by rewrite length_imap. Qed.

(** Writing an image onto a bitmap of its own size replaces the bitmap. *)
Lemma blit_same_size img dst :
  wf_image img -> wf_image dst ->
  img_width dst = img_width img -> img_height dst = img_height img ->
  blit img dst = img.
Proof.
  intros Himg Hdst Hw Hh. unfold blit. rewrite Hw, Hh.
  assert (length (img_data dst) = length (img_data img)) as Hlen.
  { unfold wf_image in *. congruence. }
  assert (imap (fun i old =>
                  match pixel_at img (i mod img_width img) (i / img_width img)
                  with Some p => p | None => old end) (img_data dst)
          = img_data img) as ->; [|by destruct img].
  apply list_eq. intros i. rewrite list_lookup_imap.
  destruct (decide (i < length (img_data img))) as [Hlt|Hge].
  - destruct (lookup_lt_is_Some_2 (img_data dst) i) as [old ->]; [lia|].
    simpl. rewrite (pixel_at_wf img i Himg Hlt).
    destruct (lookup_lt_is_Some_2 (img_data img) i Hlt) as [p ->]. done.
  - rewrite !lookup_ge_None_2 by lia. done.
Qed.

(** Writing an image onto a new transparent bitmap: the pixels that the image
    covers are the image's, the others are transparent. *)
Lemma pixel_at_blit_blank img w h col row :
  col < w -> row < h ->
  pixel_at (blit img (blank w h)) col row
  = Some (default transparent (pixel_at img col row)).
Proof.
  intros Hc Hr. unfold pixel_at at 1. simpl.
  apply Nat.ltb_lt in Hc as Hcb. apply Nat.ltb_lt in Hr as Hrb.
  rewrite Hcb, Hrb. simpl.
  rewrite list_lookup_imap, lookup_replicate_2 by nia. simpl.
  rewrite index_col, index_row by done.
  by destruct (pixel_at img col row).
Qed.

Lemma pixel_at_blank w h col row :
  col < w -> row < h -> pixel_at (blank w h) col row = Some transparent.
Proof.
  intros Hc Hr. unfold pixel_at. simpl.
  apply Nat.ltb_lt in Hc as Hcb. apply Nat.ltb_lt in Hr as Hrb.
  rewrite Hcb, Hrb. simpl. apply lookup_replicate_2. nia.
Qed.

(** ** Canvas operations *)

Section CanvasFacts.
Context {num : Type} `{!JsNumber num} `{!Rasterizer num}.
Implicit Types (ctx : Canvas num) (b : Board num) (tool : ToolType)
  (settings : DrawingSettings num) (p q : Point num).

Lemma paint_state op ctx : state (paint op ctx) = state ctx.
Proof. done. Qed.

Lemma paint_dims op ctx : dims (bitmap (paint op ctx)) = dims (bitmap ctx).
Proof. done. Qed.

Lemma paint_wf op ctx :
  wf_image (bitmap ctx) -> wf_image (bitmap (paint op ctx)).
Proof. unfold wf_image. simpl. by rewrite length_imap. Qed.

Lemma clearRect_wf ctx :
  wf_image (bitmap ctx) -> wf_image (bitmap (clearRect ctx)).
Proof. unfold wf_image. simpl. by rewrite length_fmap. Qed.

Lemma putImageData_same_size img ctx :
  wf_image img -> wf_image (bitmap ctx) -> dims (bitmap ctx) = dims img ->
  bitmap (putImageData img ctx) = img.
Proof.
  intros Himg Hctx [= Hw Hh]. simpl. by apply blit_same_size.
Qed.

Lemma drawArrowHead_state p q ctx :
  state (drawArrowHead p q ctx) = state ctx.
Proof. done. Qed.

Lemma drawShape_state tool p q ctx :
  state (drawShape tool p q ctx) = state ctx.
Proof. by destruct tool. Qed.

Lemma drawShape_dims tool p q ctx :
  dims (bitmap (drawShape tool p q ctx)) = dims (bitmap ctx).
Proof. by destruct tool. Qed.

Lemma drawShape_wf tool p q ctx :
  wf_image (bitmap ctx) -> wf_image (bitmap (drawShape tool p q ctx)).
Proof.
  unfold wf_image. intros Hwf.
  destruct tool; simpl; rewrite ?length_imap; done.
Qed.

Lemma previewStyle_bitmap tool settings ctx :
  bitmap (previewStyle tool settings ctx) = bitmap ctx.
Proof. unfold previewStyle. by destruct (ToolType_eqb tool dashed). Qed.

Lemma previewStyle_path tool settings ctx :
  path (previewStyle tool settings ctx) = path ctx.
Proof. unfold previewStyle. by destruct (ToolType_eqb tool dashed). Qed.

(** The preview style only depends on the state it is applied to. *)
Lemma previewStyle_state tool settings ctx ctx' :
  state ctx = state ctx' ->
  state (previewStyle tool settings ctx)
  = state (previewStyle tool settings ctx').
Proof.
  unfold previewStyle. intros Hst.
  destruct (ToolType_eqb tool dashed); simpl; by rewrite Hst.
Qed.

Lemma canvas_eq ctx ctx' :
  bitmap ctx = bitmap ctx' -> state ctx = state ctx' ->
  path ctx = path ctx' -> ctx = ctx'.
Proof. destruct ctx, ctx'. simpl. by intros -> -> ->. Qed.

Lemma getImageData_ready b :
  surface_ready b -> getImageData (canvas b) = Some (bitmap (canvas b)).
Proof.
  intros (Hw & Hh & _). unfold getImageData.
  apply Nat.ltb_lt in Hw as ->. apply Nat.ltb_lt in Hh as ->. done.
Qed.
End CanvasFacts.

(** ** Handlers *)

Section HandlerFacts.
Context {num : Type} `{!JsNumber num} `{!Rasterizer num}.
Implicit Types (ctx : Canvas num) (b : Board num) (tool : ToolType)
  (settings : DrawingSettings num) (p q down : Point num)
  (moves : list (Point num)) (g : Gesture num) (gs : list (Gesture num)).

(** *** Pointer-move *)

(** A move only touches the canvas, and keeps the size of the surface. *)
Lemma draw_frame tool settings p b :
  history (draw tool settings p b) = history b
  /\ isDrawing (draw tool settings p b) = isDrawing b
  /\ startPos (draw tool settings p b) = startPos b
  /\ snapshot (draw tool settings p b) = snapshot b
  /\ typingPos (draw tool settings p b) = typingPos b
  /\ dims (bitmap (canvas (draw tool settings p b)))
     = dims (bitmap (canvas b)).
Proof.
  unfold draw.
  destruct (isDrawing b) eqn:Hd, (startPos b) as [a|] eqn:Ha; try done.
  destruct (ToolType_eqb tool pen || ToolType_eqb tool eraser);
    [by repeat split|].
  destruct (snapshot b) eqn:Hs; [|done]. simpl.
  repeat split; try done.
  unfold dims. simpl. by destruct (ToolType_eqb tool dashed), tool.
Qed.

Lemma draw_wf tool settings p b :
  wf_image (bitmap (canvas b)) ->
  wf_image (bitmap (canvas (draw tool settings p b))).
Proof.
  intros Hwf. unfold draw.
  destruct (isDrawing b), (startPos b) as [a|]; try done.
  destruct (ToolType_eqb tool pen || ToolType_eqb tool eraser).
  - simpl. by apply (paint_wf _ (lineTo (x p) (y p) (canvas b))).
  - destruct (snapshot b) as [snap|]; [|done]. simpl.
    apply drawShape_wf. destruct (ToolType_eqb tool dashed); simpl;
      by apply blit_wf.
Qed.

Lemma draw_ready tool settings p b :
  surface_ready b -> surface_ready (draw tool settings p b).
Proof.
  intros (Hw & Hh & Hwf).
  destruct (draw_frame tool settings p b) as (_ & _ & _ & _ & _ & [= Hw' Hh']).
  unfold surface_ready. rewrite Hw', Hh'. auto using draw_wf.
Qed.

(** The preview of a shape, spelled out: the snapshot is written back, the
    path is emptied, the style is set and the outline is drawn. *)
Lemma draw_shape tool settings p b a snap :
  isDrawing b = true -> startPos b = Some a -> snapshot b = Some snap ->
  is_shape tool = true ->
  draw tool settings p b
  = set_canvas (drawShape tool a p
                  (previewStyle tool settings
                     (beginPath (putImageData snap (canvas b))))) b.
Proof.
  intros Hd Ha Hs Htool. unfold draw. rewrite Hd, Ha, Hs.
  by destruct tool.
Qed.

(** *** Pointer-up *)

Lemma stopDrawing_frame b :
  history (stopDrawing b) = history b
  /\ bitmap (canvas (stopDrawing b)) = bitmap (canvas b)
  /\ state (canvas (stopDrawing b)) = state (canvas b)
  /\ typingPos (stopDrawing b) = typingPos b.
Proof. unfold stopDrawing. by destruct (isDrawing b). Qed.

(** *** Pointer-down *)

(** On a surface that exists, pointer-down with a drawing tool opens a
    session: one snapshot of the untouched surface is taken, kept for the
    preview and pushed on the history. *)
Lemma startDrawing_begin tool settings down b :
  surface_ready b -> ToolType_eqb tool text = false ->
  exists ctx,
    startDrawing tool settings down b
    = Done (mkBoard ctx true (Some down) (Some (bitmap (canvas b)))
              (pushHistory (bitmap (canvas b)) (history b)) (typingPos b))
    /\ bitmap ctx = bitmap (canvas b)
    /\ globalCompositeOperation (state ctx) = mode_of tool
    /\ strokeStyle (state ctx) = color settings
    /\ lineWidth (state ctx) = width settings
    /\ globalAlpha (state ctx) = globalAlpha (state (canvas b))
    /\ (is_shape tool = true ->
        state (previewStyle tool settings ctx) = state ctx).
Proof.
  intros Hready Htool. unfold startDrawing.
  rewrite Htool, (getImageData_ready b Hready).
  eexists. split; [reflexivity|].
  by destruct tool.
Qed.

(** *** Sessions *)

Lemma session_snoc tool settings down moves p b :
  session tool settings down (moves ++ [p]) b
  = draw tool settings p (session tool settings down moves b).
Proof. unfold session. by rewrite foldl_snoc. Qed.

Lemma moves_frame tool settings moves b :
  let b' := foldl (fun acc q => draw tool settings q acc) b moves in
  history b' = history b
  /\ isDrawing b' = isDrawing b
  /\ startPos b' = startPos b
  /\ snapshot b' = snapshot b
  /\ typingPos b' = typingPos b
  /\ dims (bitmap (canvas b')) = dims (bitmap (canvas b))
  /\ (wf_image (bitmap (canvas b)) -> wf_image (bitmap (canvas b'))).
Proof.
  revert b. induction moves as [|q moves IH]; intros b; simpl; [done|].
  destruct (IH (draw tool settings q b)) as (-> & -> & -> & -> & -> & -> & Hwf).
  destruct (draw_frame tool settings q b) as (-> & -> & -> & -> & -> & ->).
  repeat split; try done.
  intros Hb. by apply Hwf, draw_wf.
Qed.

(** The moves of a session keep the style that pointer-down has set. *)
Lemma moves_style tool settings moves b a :
  ToolType_eqb tool text = false ->
  globalCompositeOperation (state (canvas b)) = mode_of tool
  /\ strokeStyle (state (canvas b)) = color settings
  /\ lineWidth (state (canvas b)) = width settings
  /\ globalAlpha (state (canvas b)) = a ->
  let b' := foldl (fun acc q => draw tool settings q acc) b moves in
  globalCompositeOperation (state (canvas b')) = mode_of tool
  /\ strokeStyle (state (canvas b')) = color settings
  /\ lineWidth (state (canvas b')) = width settings
  /\ globalAlpha (state (canvas b')) = a.
Proof.
  intros Htool. revert b.
  induction moves as [|q moves IH]; intros b Hb; simpl; [done|].
  apply IH. unfold draw.
  destruct (isDrawing b), (startPos b) as [pa|]; try done.
  destruct (ToolType_eqb tool pen || ToolType_eqb tool eraser) eqn:Hpe;
    [done|].
  destruct (snapshot b); [|done]. simpl.
  rewrite drawShape_state.
  destruct Hb as (_ & _ & _ & Ha).
  by destruct tool.
Qed.
End HandlerFacts.

(** ** Committing actions *)

Section CommitFacts.
Context {num : Type} `{!JsNumber num} `{!Rasterizer num}.
Implicit Types (b : Board num) (tool : ToolType)
  (settings : DrawingSettings num) (g : Gesture num)
  (gs : list (Gesture num)).

Lemma surface_ready_same b b' :
  dims (bitmap (canvas b')) = dims (bitmap (canvas b)) ->
  wf_image (bitmap (canvas b')) ->
  surface_ready b -> surface_ready b'.
Proof.
  intros [= Hw Hh] Hwf (? & ? & _). unfold surface_ready.
  rewrite Hw, Hh. done.
Qed.

(** A drag with a drawing tool: what is left when the pointer goes up. *)
Lemma drag_commit tool settings down moves b :
  surface_ready b -> ToolType_eqb tool text = false ->
  let b' := stopDrawing (session tool settings down moves b) in
  history b' = pushHistory (bitmap (canvas b)) (history b)
  /\ dims (bitmap (canvas b')) = dims (bitmap (canvas b))
  /\ wf_image (bitmap (canvas b')).
Proof.
  intros Hready Htool b'. subst b'. unfold session.
  destruct (startDrawing_begin tool settings down b Hready Htool)
    as (ctx & -> & Hbm & _).
  cbn [board_of].
  match goal with
  | |- context [foldl ?f ?b0 moves] =>
      destruct (moves_frame tool settings moves b0)
        as (Hh & _ & _ & _ & _ & Hd & Hwf);
      set (b1 := foldl f b0 moves) in *
  end.
  destruct (stopDrawing_frame b1) as (Hh' & Hbm' & _).
  rewrite Hh', Hbm', Hh, Hd. cbn [history canvas]. rewrite Hbm.
  repeat split. apply Hwf. cbn [canvas]. rewrite Hbm. apply Hready.
Qed.

(** Every committing action pushes the surface as it was before the action,
    once, and leaves a surface of the same size. *)
Lemma perform_commit g b :
  surface_ready b -> committing g = true ->
  history (perform g b) = pushHistory (bitmap (canvas b)) (history b)
  /\ dims (bitmap (canvas (perform g b))) = dims (bitmap (canvas b))
  /\ surface_ready (perform g b).
Proof.
  intros Hready Hg. destruct g as [|tool settings down moves|settings pos txt].
  - unfold perform, clearEffect. rewrite (getImageData_ready b Hready).
    do 2 (split; [done|]).
    apply (surface_ready_same b); [done| |done].
    apply clearRect_wf, Hready.
  - simpl in Hg. apply negb_true_iff in Hg.
    destruct (drag_commit tool settings down moves b Hready Hg)
      as (Hh & Hd & Hwf).
    do 2 (split; [done|]). by apply (surface_ready_same b).
  - simpl in Hg. unfold perform, startDrawing, handleTextComplete.
    cbn [ToolType_eqb board_of typingPos setTypingPos canvas].
    rewrite Hg, (getImageData_ready b Hready).
    do 2 (split; [done|]).
    apply (surface_ready_same b); [done| |done].
    cbn [board_of canvas]. apply paint_wf, Hready.
Qed.

Lemma surfaces_before_length gs b : length (surfaces_before gs b) = length gs.
Proof. revert b. induction gs; intros b; simpl; auto. Qed.

(** After at least one committing action the history is the last twenty of
    what was there followed by the surfaces before each action. *)
Lemma perform_all_history g gs b :
  surface_ready b -> Forall (fun g' => committing g' = true) (g :: gs) ->
  history (perform_all (g :: gs) b)
  = recent 20 (history b ++ surfaces_before (g :: gs) b)
  /\ surface_ready (perform_all (g :: gs) b).
Proof.
  revert g b. induction gs as [|g' gs IH]; intros g b Hready Hall.
  - apply Forall_cons in Hall as [Hg _].
    destruct (perform_commit g b Hready Hg) as (Hh & _ & Hr).
    simpl. split; [|done]. by rewrite Hh, pushHistory_recent.
  - apply Forall_cons in Hall as [Hg Hall].
    destruct (perform_commit g b Hready Hg) as (Hh & _ & Hr).
    destruct (IH g' (perform g b) Hr Hall) as [IHh IHr].
    split; [|done].
    change (perform_all (g :: g' :: gs) b)
      with (perform_all (g' :: gs) (perform g b)).
    rewrite IHh, Hh, pushHistory_recent, recent_app_recent.
    cbn [surfaces_before]. by rewrite <- app_assoc.
Qed.
End CommitFacts.

(* ------------------------------------------------------------------ *)
(** * The engine against its specification *)

Section History.
Context {num : Type} `{!JsNumber num} `{!Rasterizer num}.
Implicit Types (b : Board num) (g : Gesture num) (gs : list (Gesture num)).

(** C1.  The history stack is bounded to 20 snapshots with first-in
    first-out eviction.  A push never leaves more than 20 entries.  After
    more than 20 committing actions the stack has exactly 20 entries: the
    surfaces captured before the 20 most recent actions, oldest first.  In
    particular, after 25 clears it holds the snapshots of clears 6 to 25. *)
Theorem history_bounded_fifo :
  (forall (currentData : ImageData) (prev : list ImageData),
      length (pushHistory currentData prev) <= 20)
  /\ (forall gs b,
        surface_ready b ->
        Forall (fun g => committing g = true) gs ->
        20 < length gs ->
        length (history (perform_all gs b)) = 20
        /\ history (perform_all gs b)
           = drop (length gs - 20) (surfaces_before gs b))
  /\ (forall b,
        surface_ready b ->
        history (perform_all (replicate 25 Clear) b)
        = drop 5 (surfaces_before (replicate 25 Clear) b)).
Proof.
  assert (forall gs b,
             surface_ready b ->
             Forall (fun g => committing g = true) gs ->
             20 <= length gs ->
             history (perform_all gs b)
             = drop (length gs - 20) (surfaces_before gs b)) as Hlong.
  { intros gs b Hready Hall Hlen.
    destruct gs as [|g gs]; [simpl in Hlen; lia|].
    destruct (perform_all_history g gs b Hready Hall) as [-> _].
    rewrite recent_app_long by (rewrite surfaces_before_length; lia).
    unfold recent. by rewrite surfaces_before_length. }
  split; [|split].
  - intros currentData prev. rewrite pushHistory_length. lia.
  - intros gs b Hready Hall Hlen.
    rewrite Hlong by (done || lia). split; [|done].
    rewrite length_drop, surfaces_before_length. lia.
  - intros b Hready.
    apply (Hlong (replicate 25 Clear) b Hready).
    + by apply Forall_replicate.
    + rewrite length_replicate. lia.
Qed.

(** C2.  Undo round-trip.  A committing action leaves on top of the stack
    the surface as it was just before the action, whatever the number of
    preview redraws of the action; the next undo removes that entry, and
    only that one, and writes it back: the surface is, pixel for pixel, the
    one before the action. *)
Theorem undo_round_trip g b :
  surface_ready b -> committing g = true ->
  history (perform g b)
  = history (undo (perform g b)) ++ [bitmap (canvas b)]
  /\ bitmap (canvas (undo (perform g b))) = bitmap (canvas b).
Proof.
  intros Hready Hg.
  destruct (perform_commit g b Hready Hg) as (Hh & Hd & Hr).
  unfold undo, undoEffect. rewrite Hh, pushHistory_last.
  cbn [history canvas]. rewrite popHistory_pushHistory. split; [done|].
  apply putImageData_same_size; [apply Hready|apply Hr|done].
Qed.

(** C4.  Undo with an empty history changes nothing: surface, history and
    the rest of the state are as they were, and the handler has no error
    path. *)
Theorem undo_empty_history b : history b = [] -> undo b = b.
Proof. intros Hh. unfold undo, undoEffect. by rewrite Hh. Qed.
End History.

Section Idle.
Context {num : Type} `{!JsNumber num} `{!Rasterizer num}.
Implicit Types (b : Board num) (tool : ToolType)
  (settings : DrawingSettings num) (p : Point num).

(** Pointer-move does nothing unless the drawing flag is set. *)
Lemma draw_not_drawing tool settings p b :
  isDrawing b = false -> draw tool settings p b = b.
Proof. intros Hd. unfold draw. by rewrite Hd. Qed.

(** C10.  With no session active (no anchor recorded, drawing flag off), a
    pointer-move and a pointer-up or pointer-leave leave the surface, the
    history and the session state as they are. *)
Theorem idle_pointer_events tool settings p b :
  isDrawing b = false -> startPos b = None ->
  draw tool settings p b = b /\ stopDrawing b = b.
Proof.
  intros Hd _. split; [by apply draw_not_drawing|].
  unfold stopDrawing. by rewrite Hd.
Qed.
End Idle.

Section Sessions.
Context {num : Type} `{!JsNumber num} `{!Rasterizer num}.
Implicit Types (b : Board num) (tool : ToolType)
  (settings : DrawingSettings num) (p down : Point num)
  (moves : list (Point num)) (st : DrawState num).

Lemma is_shape_not_text tool :
  is_shape tool = true -> ToolType_eqb tool text = false.
Proof. by destruct tool. Qed.

(** One preview frame: the surface is the snapshot with the outline on
    top, whatever the previous frame was. *)
Lemma previewing_draw tool settings down snap st p b :
  is_shape tool = true ->
  state (previewStyle tool settings (mkCanvas snap st [])) = st ->
  previewing down snap st b ->
  draw tool settings p b
  = mkBoard (drawShape tool down p (mkCanvas snap st [])) true (Some down)
            (Some snap) (history b) (typingPos b)
  /\ previewing down snap st (draw tool settings p b).
Proof.
  intros Htool Hst (Hd & Ha & Hs & Hstate & Hdims & Hwf & Hwfs).
  rewrite (draw_shape tool settings p b down snap Hd Ha Hs Htool).
  assert (previewStyle tool settings
            (beginPath (putImageData snap (canvas b)))
          = mkCanvas snap st []) as ->.
  { apply canvas_eq.
    - rewrite previewStyle_bitmap. cbn [beginPath bitmap].
      by apply putImageData_same_size.
    - transitivity (state (previewStyle tool settings (mkCanvas snap st [])));
        [|done].
      apply previewStyle_state. by rewrite <- Hstate.
    - by rewrite previewStyle_path. }
  split.
  - unfold set_canvas. by rewrite Hd, Ha, Hs.
  - unfold previewing. cbn [set_canvas isDrawing startPos snapshot canvas].
    rewrite drawShape_state, drawShape_dims.
    repeat split; try done. by apply drawShape_wf.
Qed.

Lemma previewing_moves tool settings down snap st moves b :
  is_shape tool = true ->
  state (previewStyle tool settings (mkCanvas snap st [])) = st ->
  previewing down snap st b ->
  previewing down snap st
    (foldl (fun acc q => draw tool settings q acc) b moves).
Proof.
  intros Htool Hst. revert b.
  induction moves as [|q moves IH]; intros b Hb; simpl; [done|].
  apply IH. by apply previewing_draw.
Qed.

(** A shape session: its states all restore the surface of pointer-down,
    under the style of pointer-down. *)
Lemma session_previewing tool settings down moves b :
  surface_ready b -> is_shape tool = true ->
  let st := state (canvas (board_of (startDrawing tool settings down b))) in
  state (previewStyle tool settings (mkCanvas (bitmap (canvas b)) st []))
  = st
  /\ previewing down (bitmap (canvas b)) st
       (session tool settings down moves b).
Proof.
  intros Hready Htool. unfold session.
  destruct (startDrawing_begin tool settings down b Hready
              (is_shape_not_text tool Htool))
    as (ctx & -> & Hbm & _ & _ & _ & _ & Hstyle).
  cbn [board_of canvas].
  assert (state (previewStyle tool settings
                   (mkCanvas (bitmap (canvas b)) (state ctx) []))
          = state ctx) as Hst.
  { transitivity (state (previewStyle tool settings ctx)); [|by auto].
    by apply previewStyle_state. }
  split; [done|].
  apply previewing_moves; [done..|].
  unfold previewing. cbn [isDrawing startPos snapshot canvas].
  rewrite Hbm. repeat split; apply Hready.
Qed.

(** C5.  The preview is idempotent.  In a shape session, a second move to
    the same point under the same settings leaves the board, and so the
    raster buffer, exactly as the first move left it: every move writes the
    snapshot of pointer-down back before it draws the outline, so the frame
    after a move is the frame of a session that has seen this move only. *)
Theorem preview_idempotent tool settings down moves p b :
  surface_ready b -> is_shape tool = true ->
  draw tool settings p (draw tool settings p
                          (session tool settings down moves b))
  = draw tool settings p (session tool settings down moves b)
  /\ draw tool settings p (session tool settings down moves b)
     = session tool settings down [p] b.
Proof.
  intros Hready Htool.
  destruct (session_previewing tool settings down moves b Hready Htool)
    as (Hst & Hs).
  destruct (session_previewing tool settings down [] b Hready Htool)
    as (_ & Hs0).
  destruct (previewing_draw tool settings _ _ _ p _ Htool Hst Hs)
    as (E1 & Hs1).
  destruct (previewing_draw tool settings _ _ _ p _ Htool Hst Hs1)
    as (E2 & _).
  destruct (previewing_draw tool settings _ _ _ p _ Htool Hst Hs0)
    as (E0 & _).
  split.
  - rewrite E2, E1. done.
  - change (session tool settings down [p] b)
      with (draw tool settings p (session tool settings down [] b)).
    rewrite E1, E0. unfold session.
    match goal with
    | |- context [foldl ?f ?b0 moves] =>
        destruct (moves_frame tool settings moves b0)
          as (-> & _ & _ & _ & -> & _)
    end.
    done.
Qed.

(** C6.  Compositing-mode discipline.  From pointer-down to the last move
    of a session the compositing mode of the context is destination-out if
    the tool is the eraser and source-over for every other tool, whatever
    mode the context was left in before the session. *)
Theorem composite_mode_discipline tool settings down moves b :
  surface_ready b -> tool <> text ->
  let mode :=
    globalCompositeOperation
      (state (canvas (session tool settings down moves b))) in
  (tool = eraser -> mode = destination_out)
  /\ (tool <> eraser -> mode = source_over).
Proof.
  intros Hready Htool mode.
  assert (ToolType_eqb tool text = false) as Htext by by destruct tool.
  assert (mode = mode_of tool) as ->.
  { subst mode. unfold session.
    destruct (startDrawing_begin tool settings down b Hready Htext)
      as (ctx & -> & _ & Hmode & Hcolor & Hwidth & Halpha & _).
    by apply (moves_style tool settings moves _
                (globalAlpha (state (canvas b))) Htext). }
  split; [by intros ->|]. by destruct tool.
Qed.
End Sessions.

(** ** Text *)

Lemma trimStart_blank (s : JsString) :
  forallb isWhiteSpace s = true -> trimStart s = [].
Proof.
  induction s as [|c s IH]; simpl; [done|].
  intros [-> Hs]%andb_true_iff. auto.
Qed.

Lemma trimStart_nil (s : JsString) :
  trimStart s = [] -> forallb isWhiteSpace s = true.
Proof.
  induction s as [|c s IH]; simpl; [done|].
  destruct (isWhiteSpace c); [auto|done].
Qed.

Lemma trimStart_head (s : JsString) c rest :
  trimStart s = c :: rest -> isWhiteSpace c = false.
Proof.
  induction s as [|c' s IH]; simpl; [done|].
  destruct (isWhiteSpace c') eqn:Hc; [auto|]. by intros [= <- _].
Qed.

Lemma forallb_reverse {A} (f : A -> bool) (l : list A) :
  forallb f (reverse l) = forallb f l.
Proof.
  induction l as [|a l IH]; [done|].
  rewrite reverse_cons, forallb_app, IH. simpl.
  rewrite andb_true_r. apply andb_comm.
Qed.

(** The trimmed text is empty exactly when the text is empty or consists of
    white space only. *)
Lemma trim_blank_iff (s : JsString) :
  trim s = [] <-> forallb isWhiteSpace s = true.
Proof.
  unfold trim, trimEnd. split.
  - intros Hs. apply trimStart_nil.
    assert (trimStart (reverse (trimStart s)) = []) as Hr.
    { rewrite <- (reverse_involutive (trimStart _)). by rewrite Hs. }
    apply trimStart_nil in Hr. rewrite forallb_reverse in Hr.
    destruct (trimStart s) as [|c rest] eqn:Ht; [done|].
    apply trimStart_head in Ht. simpl in Hr. by rewrite Ht in Hr.
  - intros Hs. by rewrite (trimStart_blank s Hs).
Qed.

Section Text.
Context {num : Type} `{!JsNumber num} `{!Rasterizer num}.
Implicit Types (b : Board num) (settings : DrawingSettings num)
  (anchor : Point num) (txt : JsString).

(** C7.  Text commit.  Completing the entry with text that is not blank
    pushes the surface once and then fills the text at the anchor, with
    font "bold 32px sans-serif", top baseline, fill style [settings.color]
    and source-over compositing; line width and alpha of the context are
    not set.  Completing it with empty or white-space-only text only
    closes the entry: history and canvas are untouched.  In both cases the
    outcome depends on the settings through the colour only. *)
Theorem text_commit settings txt anchor b :
  (surface_ready b -> typingPos b = Some anchor -> trim txt <> [] ->
   exists st,
     handleTextComplete settings txt b
     = Done (mkBoard
               (fillText txt (x anchor) (y anchor)
                  (mkCanvas (bitmap (canvas b)) st (path (canvas b))))
               (isDrawing b) (startPos b) (snapshot b)
               (pushHistory (bitmap (canvas b)) (history b)) None)
     /\ font st = "bold 32px sans-serif"%string
     /\ fillStyle st = color settings
     /\ textBaseline st = baseline_top
     /\ globalCompositeOperation st = source_over
     /\ lineWidth st = lineWidth (state (canvas b))
     /\ globalAlpha st = globalAlpha (state (canvas b)))
  /\ (forallb isWhiteSpace txt = true ->
      handleTextComplete settings txt b = Done (setTypingPos None b)
      /\ history (setTypingPos None b) = history b
      /\ canvas (setTypingPos None b) = canvas b)
  /\ (forall settings',
        color settings' = color settings ->
        handleTextComplete settings' txt b
        = handleTextComplete settings txt b).
Proof.
  split; [|split].
  - intros Hready Hpos Htxt. unfold handleTextComplete.
    destruct (trim txt) as [|c rest]; [done|]. cbn [truthy].
    rewrite Hpos, (getImageData_ready b Hready).
    eexists. split; [reflexivity|]. done.
  - intros Hblank. apply trim_blank_iff in Hblank.
    unfold handleTextComplete. by rewrite Hblank.
  - intros settings' Hcolor. unfold handleTextComplete. by rewrite Hcolor.
Qed.
End Text.

Section Resize.
Context {num : Type} `{!JsNumber num} `{!Rasterizer num}.
Implicit Types (b : Board num).

(** C8.  Resize keeps the committed content.  After a resize to [w] by [h]
    the surface has that size; each of its pixels that the old surface
    covered holds what the old surface held there, the captured content
    being put back at the origin; each pixel that the old surface did not
    cover is transparent; content beyond the new sides is gone with the old
    bitmap.  A surface with a zero side has no content to capture and
    everything is transparent.  The history is not touched. *)
Theorem resize_preserves_content w h b col row :
  col < w -> row < h ->
  dims (bitmap (canvas (resize w h b))) = (w, h)
  /\ pixel_at (bitmap (canvas (resize w h b))) col row
     = Some (default transparent (pixel_at (bitmap (canvas b)) col row))
  /\ history (resize w h b) = history b.
Proof.
  intros Hc Hr. unfold resize, getImageData.
  destruct ((0 <? img_width (bitmap (canvas b)))
            && (0 <? img_height (bitmap (canvas b)))) eqn:Hsize.
  - cbn [set_canvas canvas history putImageData with_bitmap bitmap
         set_height set_width blank img_width img_height].
    repeat split. by apply (pixel_at_blit_blank _ w h).
  - cbn [set_canvas canvas history bitmap set_height set_width blank
         img_width img_height].
    repeat split. rewrite (pixel_at_blank w h) by done.
    unfold pixel_at.
    apply andb_false_iff in Hsize as [Hz|Hz]; apply Nat.ltb_ge in Hz.
    + replace (col <? img_width (bitmap (canvas b))) with false; [done|].
      symmetry. apply Nat.ltb_ge. lia.
    + replace (row <? img_height (bitmap (canvas b))) with false;
        [by rewrite andb_false_r|].
      symmetry. apply Nat.ltb_ge. lia.
Qed.
End Resize.

Section Settings.
Context {num : Type} `{!JsNumber num} `{!Rasterizer num}.
Implicit Types (b : Board num) (tool : ToolType)
  (settings : DrawingSettings num) (p down pos : Point num)
  (moves : list (Point num)) (txt : JsString) (o : num).

Lemma draw_opacity tool settings o p b :
  draw tool (with_opacity o settings) p b = draw tool settings p b.
Proof. done. Qed.

Lemma session_opacity tool settings o down moves b :
  session tool (with_opacity o settings) down moves b
  = session tool settings down moves b.
Proof.
  unfold session.
  change (startDrawing tool (with_opacity o settings) down b)
    with (startDrawing tool settings down b).
  generalize (board_of (startDrawing tool settings down b)).
  induction moves as [|q moves IH]; intros b0; simpl; [done|].
  by rewrite draw_opacity, IH.
Qed.

(** C9, as the code has it.  Colour and width of the settings apply to
    every stroke and shape: from pointer-down to the last move of a session
    the stroke style is [settings.color] and the line width is
    [settings.width].  The colour applies to every text commit: it is the
    fill style.  The opacity is not read: the alpha of the context is what
    it was before the action, and sessions and text commits under settings
    that differ in the opacity only produce the same board. *)
Theorem settings_color_width_apply tool settings down moves pos txt o b :
  surface_ready b -> tool <> text -> trim txt <> [] ->
  let s := session tool settings down moves b in
  let t := perform (TypeText settings pos txt) b in
  (strokeStyle (state (canvas s)) = color settings
   /\ lineWidth (state (canvas s)) = width settings
   /\ globalAlpha (state (canvas s)) = globalAlpha (state (canvas b)))
  /\ (fillStyle (state (canvas t)) = color settings
      /\ globalAlpha (state (canvas t)) = globalAlpha (state (canvas b)))
  /\ session tool (with_opacity o settings) down moves b = s
  /\ perform (TypeText (with_opacity o settings) pos txt) b = t.
Proof.
  intros Hready Htool Htxt s t.
  assert (ToolType_eqb tool text = false) as Htext by by destruct tool.
  split; [|split; [|split]].
  - subst s. unfold session.
    destruct (startDrawing_begin tool settings down b Hready Htext)
      as (ctx & -> & _ & Hmode & Hcolor & Hwidth & Halpha & _).
    by apply (moves_style tool settings moves _
                (globalAlpha (state (canvas b))) Htext).
  - subst t. unfold perform, startDrawing, handleTextComplete.
    cbn [ToolType_eqb board_of typingPos setTypingPos canvas].
    destruct (trim txt) as [|c rest]; [done|]. cbn [truthy].
    by rewrite (getImageData_ready b Hready).
  - apply session_opacity.
  - done.
Qed.
End Settings.

Section Mount.
Context {num : Type} `{!JsNumber num}.

(** The clear effect runs after the first render too: mounting alone leaves
    one snapshot, the blank initial surface, on the history. *)
Lemma mount_history : history mount = [blank 300 150].
Proof.
  unfold mount, undoEffect. cbn [initial_board history last].
  unfold clearEffect, getImageData. reflexivity.
Qed.
End Mount.

Section Previews.
Context {num : Type} `{!JsNumber num} `{!Rasterizer num}.
Implicit Types (b : Board num) (tool : ToolType)
  (settings : DrawingSettings num) (down : Point num)
  (moves : list (Point num)).

(** The moves of a session, previews included, never push: the history is
    the one that pointer-down has left. *)
Lemma session_history tool settings down moves b :
  history (session tool settings down moves b)
  = history (board_of (startDrawing tool settings down b)).
Proof.
  unfold session.
  match goal with
  | |- context [foldl ?f ?b0 moves] =>
      by destruct (moves_frame tool settings moves b0) as (-> & _)
  end.
Qed.

(** Neither do undo, resize, a tool switch or a click of the text tool
    make the history longer. *)
Lemma other_events_never_push settings down w h b :
  length (history (undo b)) <= length (history b)
  /\ history (resize w h b) = history b
  /\ history (toolEffect b) = history b
  /\ history (stopDrawing b) = history b
  /\ history (board_of (startDrawing text settings down b)) = history b.
Proof.
  repeat split; try done.
  - unfold undo, undoEffect. destruct (last (history b)); [|done].
    cbn [history]. unfold popHistory. rewrite length_take. lia.
  - by destruct (stopDrawing_frame b) as (-> & _).
Qed.
End Previews.

(** ** Invariants of the running application *)

Section Reachable.
Context {num : Type} `{!JsNumber num} `{!Rasterizer num}.
Implicit Types (b : Board num) (tool : ToolType)
  (settings : DrawingSettings num) (p : Point num) (txt : JsString)
  (a : App num) (e : Event num).

Lemma popHistory_length (h : list ImageData) :
  length (popHistory h) <= length h.
Proof. unfold popHistory. rewrite length_take. lia. Qed.

Lemma pushHistory_bound (x : ImageData) (h : list ImageData) :
  length (pushHistory x h) <= 20.
Proof. rewrite pushHistory_length. lia. Qed.

(** Pointer-down: the pixels stay, the alpha stays, the history stays
    within its bound. *)
Lemma startDrawing_invariant tool settings p b :
  let b' := board_of (startDrawing tool settings p b) in
  bitmap (canvas b') = bitmap (canvas b)
  /\ globalAlpha (state (canvas b')) = globalAlpha (state (canvas b))
  /\ (length (history b) <= 20 -> length (history b') <= 20).
Proof.
  unfold startDrawing.
  destruct (ToolType_eqb tool text); [done|].
  destruct (getImageData (canvas b)); [|done].
  cbn [board_of canvas history]. repeat split.
  - by destruct (ToolType_eqb tool eraser), (ToolType_eqb tool dashed).
  - by destruct (ToolType_eqb tool eraser), (ToolType_eqb tool dashed).
  - intros _. apply pushHistory_bound.
Qed.

Lemma draw_alpha tool settings p b :
  globalAlpha (state (canvas (draw tool settings p b)))
  = globalAlpha (state (canvas b)).
Proof.
  unfold draw.
  destruct (isDrawing b), (startPos b); try done.
  destruct (ToolType_eqb tool pen || ToolType_eqb tool eraser); [done|].
  destruct (snapshot b); [|done].
  cbn [set_canvas canvas]. rewrite drawShape_state.
  by destruct (ToolType_eqb tool dashed).
Qed.

Lemma handleTextComplete_invariant settings txt b :
  let b' := board_of (handleTextComplete settings txt b) in
  (wf_image (bitmap (canvas b)) -> wf_image (bitmap (canvas b')))
  /\ globalAlpha (state (canvas b')) = globalAlpha (state (canvas b))
  /\ (length (history b) <= 20 -> length (history b') <= 20).
Proof.
  unfold handleTextComplete.
  destruct (truthy (trim txt)), (typingPos b); try done.
  destruct (getImageData (canvas b)); [|done].
  cbn [board_of canvas history]. repeat split.
  - intros Hwf. unfold wf_image in *. simpl. by rewrite length_imap.
  - intros _. apply pushHistory_bound.
Qed.

Lemma clearEffect_invariant b :
  let b' := board_of (clearEffect b) in
  (wf_image (bitmap (canvas b)) -> wf_image (bitmap (canvas b')))
  /\ globalAlpha (state (canvas b')) = globalAlpha (state (canvas b))
  /\ (length (history b) <= 20 -> length (history b') <= 20).
Proof.
  unfold clearEffect. destruct (getImageData (canvas b)); [|done].
  cbn [board_of canvas history]. repeat split.
  - apply clearRect_wf.
  - intros _. apply pushHistory_bound.
Qed.

Lemma undo_invariant b :
  (wf_image (bitmap (canvas b)) -> wf_image (bitmap (canvas (undo b))))
  /\ globalAlpha (state (canvas (undo b))) = globalAlpha (state (canvas b))
  /\ length (history (undo b)) <= length (history b).
Proof.
  unfold undo, undoEffect. destruct (last (history b)); [|done].
  cbn [canvas history]. repeat split.
  - apply blit_wf.
  - apply popHistory_length.
Qed.

Lemma resize_invariant w h b :
  wf_image (bitmap (canvas (resize w h b)))
  /\ globalAlpha (state (canvas (resize w h b))) = lit 1
  /\ history (resize w h b) = history b.
Proof.
  unfold resize.
  destruct ((0 <? img_width (bitmap (canvas b)))
            && (0 <? img_height (bitmap (canvas b))));
    [destruct (getImageData (canvas b))|];
    repeat split; try apply blit_wf; apply blank_wf.
Qed.

Lemma mount_invariant :
  wf_image (bitmap (canvas mount))
  /\ length (history mount) <= 20
  /\ globalAlpha (state (canvas mount)) = lit 1.
Proof.
  split; [|split].
  - unfold mount, undoEffect. cbn [initial_board history last].
    destruct (clearEffect_invariant (toolEffect initial_board)) as (Hwf & _).
    apply Hwf. exact (blank_wf 300 150).
  - rewrite mount_history. simpl. lia.
  - reflexivity.
Qed.

Lemma step_invariant e a : app_invariant a -> app_invariant (step e a).
Proof.
  intros (Hwf & Hlen & Halpha & Hop). unfold app_invariant.
  destruct e; cbn [step board app_settings].
  - destruct (startDrawing_invariant (currentTool a) (app_settings a) pos
                (board a)) as (-> & -> & Hh). auto.
  - rewrite draw_alpha.
    destruct (draw_frame (currentTool a) (app_settings a) pos (board a))
      as (-> & _). auto using draw_wf.
  - destruct (stopDrawing_frame (board a)) as (-> & -> & -> & _). auto.
  - destruct (handleTextComplete_invariant (app_settings a) txt (board a))
      as (? & -> & ?). auto.
  - destruct (clearEffect_invariant (board a)) as (? & -> & ?). auto.
  - destruct (undo_invariant (board a)) as (? & -> & ?).
    repeat split; auto. lia.
  - destruct (resize_invariant w h (board a)) as (? & -> & ->). auto.
  - destruct (ToolType_eqb t (currentTool a)); [done|].
    cbn [board app_settings]. auto.
  - auto.
  - auto.
Qed.

(** After mounting, the history only grows on a pointer-down with a drawing
    tool, on the completion of a text entry that is open and not blank, and
    on a clear. *)
Lemma step_push e a :
  length (history (board a)) < length (history (board (step e a))) ->
  match e with
  | PointerDown _ => currentTool a <> text
  | InputBlur txt => trim txt <> [] /\ typingPos (board a) <> None
  | ClickClear => True
  | _ => False
  end.
Proof.
  destruct e; cbn [step board]; try done.
  - intros Hlt Ht. rewrite Ht in Hlt. unfold startDrawing in Hlt.
    simpl in Hlt. lia.
  - destruct (draw_frame (currentTool a) (app_settings a) pos (board a))
      as (-> & _). lia.
  - destruct (stopDrawing_frame (board a)) as (-> & _). lia.
  - unfold handleTextComplete.
    destruct (trim txt), (typingPos (board a)); simpl; try lia. done.
  - destruct (undo_invariant (board a)) as (_ & _ & ?). lia.
  - destruct (resize_invariant w h (board a)) as (_ & _ & ->). lia.
  - destruct (ToolType_eqb t (currentTool a)); simpl; lia.
  - lia.
  - lia.
Qed.

(** C3, at mount.  A snapshot is pushed without any committing user action:
    the application that has just been mounted, before any event, already
    holds one snapshot on its history, the blank initial surface, because the
    clear effect also runs after the first render. *)
Theorem mount_pushes_snapshot :
  history (board (run [])) = [blank 300 150]
  /\ length (history (board (run []))) = 1.
Proof.
  unfold run. cbn [foldl initial_app board].
  rewrite mount_history. done.
Qed.

(** Whatever the user does after mounting, the surface is well formed, the
    history holds at most 20 snapshots, and alpha and opacity are both 1. *)
Lemma run_invariant (events : list (Event num)) : app_invariant (run events).
Proof.
  unfold run. induction events as [|e events IH] using rev_ind.
  - destruct mount_invariant as (? & ? & ?). by repeat split.
  - rewrite foldl_snoc. by apply step_invariant.
Qed.
End Reachable.

(* ------------------------------------------------------------------ *)
(** * Concrete runs

    The theorems above, applied to the 4 by 3 board on the dot platform. *)

Ltac small_ready :=
  unfold surface_ready;
  split; [simpl; lia | split; [simpl; lia | reflexivity]].

(** Twenty-five clears in a row keep the snapshots of clears 6 to 25. *)
Lemma history_bounded_fifo_witness :
  surface_ready small_board
  /\ Forall (fun g => committing g = true) (replicate 25 (@Clear Term))
  /\ 20 < length (replicate 25 (@Clear Term))
  /\ length (history (perform_all (replicate 25 Clear) small_board)) = 20
  /\ history (perform_all (replicate 25 Clear) small_board)
     = drop 5 (surfaces_before (replicate 25 Clear) small_board).
Proof.
  assert (surface_ready small_board) as Hready by small_ready.
  assert (Forall (fun g => committing g = true) (replicate 25 (@Clear Term)))
    as Hall by (simpl; repeat constructor).
  assert (20 < length (replicate 25 (@Clear Term))) as Hlen by (simpl; lia).
  exact (conj Hready (conj Hall (conj Hlen
           (proj1 (proj2 history_bounded_fifo) _ _ Hready Hall Hlen)))).
Defined.

(** A rectangle dragged over two preview frames, then undone. *)
Lemma undo_round_trip_witness :
  let g := Drag rect white (pt 1 1) [pt 2 2; pt 3 2] in
  surface_ready small_board
  /\ committing g = true
  /\ history (perform g small_board)
     = history (undo (perform g small_board)) ++ [bitmap (canvas small_board)]
  /\ bitmap (canvas (undo (perform g small_board)))
     = bitmap (canvas small_board).
Proof.
  intros g.
  assert (surface_ready small_board) as Hready by small_ready.
  assert (committing g = true) as Hg by reflexivity.
  exact (conj Hready (conj Hg (undo_round_trip g small_board Hready Hg))).
Defined.

(** Undo on the fresh board. *)
Lemma undo_empty_history_witness :
  history small_board = [] /\ undo small_board = small_board.
Proof.
  assert (history small_board = []) as Hh by reflexivity.
  exact (conj Hh (undo_empty_history small_board Hh)).
Defined.

(** A move and a release on the idle board. *)
Lemma idle_pointer_events_witness :
  isDrawing small_board = false
  /\ startPos small_board = None
  /\ draw pen white (pt 2 2) small_board = small_board
  /\ stopDrawing small_board = small_board.
Proof.
  assert (isDrawing small_board = false) as Hd by reflexivity.
  assert (startPos small_board = None) as Ha by reflexivity.
  exact (conj Hd (conj Ha
           (idle_pointer_events pen white (pt 2 2) small_board Hd Ha))).
Defined.

(** A rectangle session: two moves to the same corner. *)
Lemma preview_idempotent_witness :
  let s := session rect white (pt 1 1) [pt 2 2] small_board in
  surface_ready small_board
  /\ is_shape rect = true
  /\ draw rect white (pt 3 2) (draw rect white (pt 3 2) s)
     = draw rect white (pt 3 2) s
  /\ draw rect white (pt 3 2) s = session rect white (pt 1 1) [pt 3 2] small_board.
Proof.
  intros s.
  assert (surface_ready small_board) as Hready by small_ready.
  assert (is_shape rect = true) as Htool by reflexivity.
  exact (conj Hready (conj Htool
           (preview_idempotent rect white (pt 1 1) [pt 2 2] (pt 3 2)
              small_board Hready Htool))).
Defined.

(** An eraser session. *)
Lemma composite_mode_discipline_witness :
  let mode :=
    globalCompositeOperation
      (state (canvas (session eraser white (pt 1 1) [pt 2 2] small_board))) in
  surface_ready small_board
  /\ eraser <> text
  /\ (eraser = eraser -> mode = destination_out)
  /\ (eraser <> eraser -> mode = source_over).
Proof.
  intros mode.
  assert (surface_ready small_board) as Hready by small_ready.
  assert (eraser <> text) as Htool by discriminate.
  exact (conj Hready (conj Htool
           (composite_mode_discipline eraser white (pt 1 1) [pt 2 2]
              small_board Hready Htool))).
Defined.

(** The text tool clicked at (1,1); the entry completed with "A", and with a
    space followed by a no-break space. *)
Lemma text_commit_witness :
  let b := board_of (startDrawing text white (pt 1 1) small_board) in
  (surface_ready b
   /\ typingPos b = Some (pt 1 1)
   /\ trim letter_A <> []
   /\ history (board_of (handleTextComplete white letter_A b))
      = [bitmap (canvas small_board)])
  /\ (forallb isWhiteSpace [32%N; 160%N] = true
      /\ handleTextComplete white [32%N; 160%N] b = Done (setTypingPos None b)).
Proof.
  intros b.
  assert (surface_ready b) as Hready by small_ready.
  assert (typingPos b = Some (pt 1 1)) as Hpos by reflexivity.
  assert (trim letter_A <> []) as Htxt by discriminate.
  assert (forallb isWhiteSpace [32%N; 160%N] = true) as Hblank by reflexivity.
  split.
  - split; [exact Hready|]. split; [exact Hpos|]. split; [exact Htxt|].
    destruct (proj1 (text_commit white letter_A (pt 1 1) b) Hready Hpos Htxt)
      as (st & -> & _).
    reflexivity.
  - split; [done|].
    exact (proj1 (proj1 (proj2 (text_commit white [32%N; 160%N] (pt 1 1) b))
                    Hblank)).
Defined.

(** A pen stroke on the 4 by 3 board, then a resize to 2 by 3. *)
Lemma resize_preserves_content_witness :
  let b := perform (Drag pen white (pt 1 1) [pt 2 2]) small_board in
  1 < 2
  /\ 1 < 3
  /\ dims (bitmap (canvas (resize 2 3 b))) = (2, 3)
  /\ pixel_at (bitmap (canvas (resize 2 3 b))) 1 1
     = Some (default transparent (pixel_at (bitmap (canvas b)) 1 1))
  /\ history (resize 2 3 b) = history b.
Proof.
  intros b.
  assert (1 < 2) as Hc by lia.
  assert (1 < 3) as Hr by lia.
  exact (conj Hc (conj Hr (resize_preserves_content 2 3 b 1 1 Hc Hr))).
Defined.

(** A pen session and a text commit under white, and under white at half
    opacity. *)
Lemma settings_color_width_apply_witness :
  let s := session pen white (pt 1 1) [pt 2 2] small_board in
  let t := perform (TypeText white (pt 1 1) letter_A) small_board in
  surface_ready small_board
  /\ pen <> text
  /\ trim letter_A <> []
  /\ (strokeStyle (state (canvas s)) = color white
      /\ lineWidth (state (canvas s)) = width white
      /\ globalAlpha (state (canvas s))
         = globalAlpha (state (canvas small_board)))
  /\ (fillStyle (state (canvas t)) = color white
      /\ globalAlpha (state (canvas t))
         = globalAlpha (state (canvas small_board)))
  /\ session pen (with_opacity (opacity white_half) white) (pt 1 1) [pt 2 2]
       small_board = s
  /\ perform (TypeText (with_opacity (opacity white_half) white) (pt 1 1)
                letter_A) small_board = t.
Proof.
  intros s t.
  assert (surface_ready small_board) as Hready by small_ready.
  assert (pen <> text) as Htool by discriminate.
  assert (trim letter_A <> []) as Htxt by discriminate.
  exact (conj Hready (conj Htool (conj Htxt
           (settings_color_width_apply pen white (pt 1 1) [pt 2 2] (pt 1 1)
              letter_A (opacity white_half) small_board Hready Htool Htxt)))).
Defined.

(** C9 as stated fails.  A pen stroke under white at half opacity is painted
    with alpha 1, not one half: the pixel under the stroke is opaque, and the
    surface is the one a stroke at full opacity leaves. *)
Lemma opacity_not_applied :
  let translucent := perform (Drag pen white_half (pt 1 1) [pt 2 2]) small_board in
  let opaque := perform (Drag pen white (pt 1 1) [pt 2 2]) small_board in
  opacity white_half <> opacity white
  /\ globalAlpha (state (canvas translucent)) = TLit 1
  /\ globalAlpha (state (canvas translucent)) <> opacity white_half
  /\ pixel_at (bitmap (canvas translucent)) 2 2 = Some (RGBA 255 255 255 255)
  /\ bitmap (canvas translucent) = bitmap (canvas opaque).
Proof. vm_compute. repeat split; discriminate. Qed.

(* ------------------------------------------------------------------ *)
(** * Further properties of the engine *)

(** ** Undo, several levels deep *)

Lemma recent_app_short {A} n (l k : list A) :
  length k <= n -> recent n (l ++ k) = recent (n - length k) l ++ k.
Proof.
  intros Hle. unfold recent. rewrite length_app, drop_app.
  replace (length l + length k - n - length l) with 0 by lia.
  rewrite drop_0. f_equal. f_equal. lia.
Qed.

Lemma pixel_at_blit img dst col row :
  wf_image dst -> col < img_width dst -> row < img_height dst ->
  pixel_at (blit img dst) col row
  = match pixel_at img col row with
    | Some p => Some p
    | None => pixel_at dst col row
    end.
Proof.
  intros Hwf Hc Hr. unfold pixel_at at 1 3. simpl.
  apply Nat.ltb_lt in Hc as Hcb. apply Nat.ltb_lt in Hr as Hrb.
  rewrite Hcb, Hrb. simpl. rewrite list_lookup_imap.
  destruct (lookup_lt_is_Some_2 (img_data dst) (row * img_width dst + col))
    as [old ->]; [unfold wf_image in Hwf; nia|].
  simpl. rewrite index_col, index_row by done.
  by destruct (pixel_at img col row).
Qed.

Section UndoDepth.
Context {num : Type} `{!JsNumber num} `{!Rasterizer num}.
Implicit Types (b : Board num) (g : Gesture num) (gs : list (Gesture num))
  (tool : ToolType) (settings : DrawingSettings num) (p down : Point num)
  (moves : list (Point num)).

(** One undo when the top snapshot has the size of the surface. *)
Lemma undo_top b h snap :
  history b = h ++ [snap] -> wf_image snap ->
  wf_image (bitmap (canvas b)) -> dims (bitmap (canvas b)) = dims snap ->
  bitmap (canvas (undo b)) = snap /\ history (undo b) = h.
Proof.
  intros Hh Hsnap Hwf Hd. unfold undo, undoEffect.
  rewrite Hh, last_snoc. cbn [canvas history].
  rewrite popHistory_snoc. split; [|done].
  by apply putImageData_same_size.
Qed.

Lemma undo_nothing_left n b : history b = [] -> Nat.iter n undo b = b.
Proof.
  intros Hh. induction n as [|n IH]; [done|].
  rewrite Nat.iter_succ, IH. unfold undo, undoEffect. by rewrite Hh.
Qed.

(** As many undos as there are snapshots of the size of the surface on top
    of the history: the surface is the oldest of them. *)
Lemma undo_many (snaps : list ImageData) b h :
  history b = h ++ snaps ->
  Forall (fun s => wf_image s /\ dims s = dims (bitmap (canvas b))) snaps ->
  wf_image (bitmap (canvas b)) ->
  bitmap (canvas (Nat.iter (length snaps) undo b))
  = default (bitmap (canvas b)) (head snaps)
  /\ history (Nat.iter (length snaps) undo b) = h.
Proof.
  revert b. induction snaps as [|s snaps IH] using rev_ind; intros b Hh Hall Hwf.
  - simpl. by rewrite app_nil_r in Hh.
  - apply Forall_app in Hall as [Hall Hs].
    apply Forall_singleton in Hs as [Hs Hd].
    rewrite length_app, Nat.add_comm. cbn [length Nat.add].
    rewrite Nat.iter_succ_r.
    rewrite app_assoc in Hh.
    destruct (undo_top b (h ++ snaps) s Hh Hs Hwf (eq_sym Hd)) as [Hbm Hh'].
    destruct (IH (undo b)) as [IHbm IHh]; [done| |by rewrite Hbm|].
    { eapply Forall_impl; [exact Hall|]. intros s' [? Hd'].
      split; [done|]. by rewrite Hbm, Hd', Hd. }
    split; [|done]. rewrite IHbm, Hbm.
    by destruct snaps.
Qed.

Lemma perform_all_ready gs b :
  surface_ready b -> Forall (fun g => committing g = true) gs ->
  surface_ready (perform_all gs b)
  /\ dims (bitmap (canvas (perform_all gs b))) = dims (bitmap (canvas b))
  /\ Forall (fun s => wf_image s /\ dims s = dims (bitmap (canvas b)))
       (surfaces_before gs b).
Proof.
  revert b. induction gs as [|g gs IH]; intros b Hready Hall.
  - simpl. split; [done|]. split; [done|]. constructor.
  - apply Forall_cons in Hall as [Hg Hall].
    destruct (perform_commit g b Hready Hg) as (_ & Hd & Hr).
    destruct (IH (perform g b) Hr Hall) as (IHr & IHd & IHall).
    change (perform_all (g :: gs) b) with (perform_all gs (perform g b)).
    rewrite IHd, Hd. repeat split; try apply IHr.
    cbn [surfaces_before]. apply Forall_cons. split.
    + split; [apply Hready|done].
    + eapply Forall_impl; [exact IHall|]. intros s [? Hs].
      split; [done|]. by rewrite Hs.
Qed.

Lemma perform_all_history_full gs b :
  surface_ready b -> Forall (fun g => committing g = true) gs ->
  length (history b) <= 20 ->
  history (perform_all gs b) = recent 20 (history b ++ surfaces_before gs b).
Proof.
  intros Hready Hall Hlen. destruct gs as [|g gs].
  - simpl. by rewrite app_nil_r, recent_all.
  - by apply perform_all_history.
Qed.

(** Undo, as many times as there were committing actions, at most twenty:
    the surface is the one before the first of them, and the history is what
    the pushes have left of the old one, all of it if there was room. *)
Theorem undo_all_restores gs b :
  surface_ready b -> Forall (fun g => committing g = true) gs ->
  length gs <= 20 -> length (history b) <= 20 ->
  let b' := Nat.iter (length gs) undo (perform_all gs b) in
  bitmap (canvas b') = bitmap (canvas b)
  /\ history b' = recent (20 - length gs) (history b)
  /\ (length (history b) + length gs <= 20 -> history b' = history b).
Proof.
  intros Hready Hall Hk Hlen b'.
  destruct (perform_all_ready gs b Hready Hall) as (Hr & Hd & Hsnaps).
  pose proof (perform_all_history_full gs b Hready Hall Hlen) as Hh.
  rewrite recent_app_short in Hh by (by rewrite surfaces_before_length).
  rewrite surfaces_before_length in Hh.
  destruct (undo_many (surfaces_before gs b) (perform_all gs b)
              (recent (20 - length gs) (history b)) Hh) as [Hbm Hh'].
  { eapply Forall_impl; [exact Hsnaps|]. intros s [? Hs].
    split; [done|]. by rewrite Hs, Hd. }
  { apply Hr. }
  rewrite surfaces_before_length in Hbm, Hh'. subst b'.
  split; [|split; [done|]].
  - rewrite Hbm. destruct gs; [done|]. done.
  - intros Hroom. rewrite Hh'. apply recent_all. lia.
Qed.

(** After twenty or more committing actions, twenty undos empty the history
    and every further undo does nothing: the surface stays the one before
    the twentieth most recent action; what was before is out of reach. *)
Theorem undo_depth_exhausted gs b n :
  surface_ready b -> Forall (fun g => committing g = true) gs ->
  20 <= length gs -> 20 <= n ->
  let b' := Nat.iter n undo (perform_all gs b) in
  history b' = []
  /\ surfaces_before gs b !! (length gs - 20) = Some (bitmap (canvas b')).
Proof.
  intros Hready Hall Hlen Hn b'.
  destruct (perform_all_ready gs b Hready Hall) as (Hr & Hd & Hsnaps).
  assert (history (perform_all gs b)
          = [] ++ drop (length gs - 20) (surfaces_before gs b)) as Hh.
  { destruct gs as [|g gs]; [simpl in Hlen; lia|].
    destruct (perform_all_history g gs b Hready Hall) as [-> _].
    rewrite recent_app_long by (rewrite surfaces_before_length; lia).
    unfold recent. by rewrite surfaces_before_length. }
  set (top := drop (length gs - 20) (surfaces_before gs b)) in *.
  assert (length top = 20) as Htop.
  { subst top. rewrite length_drop, surfaces_before_length. lia. }
  destruct (undo_many top (perform_all gs b) [] Hh) as [Hbm Hh'].
  { subst top. apply Forall_drop.
    eapply Forall_impl; [exact Hsnaps|]. intros s [? Hs].
    split; [done|]. by rewrite Hs, Hd. }
  { apply Hr. }
  rewrite Htop in Hbm, Hh'. subst b'.
  replace n with ((n - 20) + 20) by lia.
  rewrite Nat.iter_add, (undo_nothing_left _ _ Hh').
  split; [done|]. rewrite Hbm.
  subst top. rewrite head_lookup, lookup_drop, Nat.add_0_r.
  destruct (lookup_lt_is_Some_2 (surfaces_before gs b) (length gs - 20))
    as [s ->]; [rewrite surfaces_before_length; lia|]. done.
Qed.

(** Undo with a snapshot of any size: the surface keeps its size, the
    snapshot is written at the origin, and where the snapshot has no pixel
    the surface keeps what it has. *)
Theorem undo_writes_snapshot_at_origin b snap col row :
  last (history b) = Some snap ->
  wf_image (bitmap (canvas b)) ->
  col < img_width (bitmap (canvas b)) ->
  row < img_height (bitmap (canvas b)) ->
  dims (bitmap (canvas (undo b))) = dims (bitmap (canvas b))
  /\ pixel_at (bitmap (canvas (undo b))) col row
     = match pixel_at snap col row with
       | Some px => Some px
       | None => pixel_at (bitmap (canvas b)) col row
       end.
Proof.
  intros Hlast Hwf Hc Hr. unfold undo, undoEffect. rewrite Hlast.
  cbn [canvas putImageData with_bitmap bitmap]. split; [done|].
  by apply pixel_at_blit.
Qed.

(** Undo in the middle of a shape session: the next move draws the preview
    as if nothing had happened, but the snapshot of the session is gone from
    the history. *)
Theorem undo_during_preview_repainted tool settings down moves p b :
  surface_ready b -> is_shape tool = true ->
  let s := session tool settings down moves b in
  canvas (draw tool settings p (undo s)) = canvas (draw tool settings p s)
  /\ history (draw tool settings p (undo s)) = recent 19 (history b).
Proof.
  intros Hready Htool s.
  destruct (session_previewing tool settings down moves b Hready Htool)
    as (Hst & Hs). fold s in Hs.
  assert (history s = pushHistory (bitmap (canvas b)) (history b)) as Hh.
  { subst s. unfold session.
    destruct (startDrawing_begin tool settings down b Hready
                (is_shape_not_text tool Htool)) as (ctx & -> & _).
    match goal with
    | |- context [foldl ?f ?b0 moves] =>
        by destruct (moves_frame tool settings moves b0) as (-> & _)
    end. }
  assert (undo s
          = mkBoard (putImageData (bitmap (canvas b)) (canvas s))
                    (isDrawing s) (startPos s) (snapshot s)
                    (recent 19 (history b)) (typingPos s)) as Hu.
  { unfold undo, undoEffect. rewrite Hh, pushHistory_last.
    by rewrite popHistory_pushHistory. }
  assert (previewing down (bitmap (canvas b))
            (state (canvas (board_of (startDrawing tool settings down b))))
            (undo s)) as Hs'.
  { rewrite Hu. destruct Hs as (? & ? & ? & ? & Hd & Hwf & Hwf').
    unfold previewing. cbn [isDrawing startPos snapshot canvas].
    repeat split; try done. by apply blit_wf. }
  destruct (previewing_draw tool settings _ _ _ p _ Htool Hst Hs) as (-> & _).
  destruct (previewing_draw tool settings _ _ _ p _ Htool Hst Hs') as (-> & _).
  split; [done|]. by rewrite Hu.
Qed.
End UndoDepth.

(** ** Clearing, empty surfaces, resizing *)

Section Surface.
Context {num : Type} `{!JsNumber num} `{!Rasterizer num}.
Implicit Types (b : Board num) (tool : ToolType)
  (settings : DrawingSettings num) (p pos anchor : Point num)
  (txt : JsString).

(** The pixels of a resized surface. *)
Lemma resize_pixel_at w h b col row :
  col < w -> row < h ->
  pixel_at (bitmap (canvas (resize w h b))) col row
  = Some (default transparent (pixel_at (bitmap (canvas b)) col row)).
Proof.
  intros Hc Hr. unfold resize, getImageData.
  destruct ((0 <? img_width (bitmap (canvas b)))
            && (0 <? img_height (bitmap (canvas b)))) eqn:Hsize.
  - cbn [set_canvas canvas putImageData with_bitmap bitmap set_height
         set_width blank img_width img_height].
    by apply (pixel_at_blit_blank _ w h).
  - cbn [set_canvas canvas bitmap set_height set_width blank img_width
         img_height].
    rewrite (pixel_at_blank w h) by done. unfold pixel_at.
    apply andb_false_iff in Hsize as [Hz|Hz]; apply Nat.ltb_ge in Hz.
    + replace (col <? img_width (bitmap (canvas b))) with false; [done|].
      symmetry. apply Nat.ltb_ge. lia.
    + replace (row <? img_height (bitmap (canvas b))) with false;
        [by rewrite andb_false_r|].
      symmetry. apply Nat.ltb_ge. lia.
Qed.

Lemma resize_dims w h b : dims (bitmap (canvas (resize w h b))) = (w, h).
Proof.
  unfold resize.
  by destruct ((0 <? img_width (bitmap (canvas b)))
               && (0 <? img_height (bitmap (canvas b)))),
     (getImageData (canvas b)).
Qed.

(** Clear on a surface that exists: every pixel becomes transparent, one
    snapshot of the surface is pushed, and size, drawing state, path and
    session are left alone. *)
Theorem clear_makes_transparent b col row :
  surface_ready b ->
  col < img_width (bitmap (canvas b)) ->
  row < img_height (bitmap (canvas b)) ->
  exists b',
    clearEffect b = Done b'
    /\ pixel_at (bitmap (canvas b')) col row = Some transparent
    /\ dims (bitmap (canvas b')) = dims (bitmap (canvas b))
    /\ state (canvas b') = state (canvas b)
    /\ path (canvas b') = path (canvas b)
    /\ history b' = pushHistory (bitmap (canvas b)) (history b)
    /\ (isDrawing b', startPos b', snapshot b', typingPos b')
       = (isDrawing b, startPos b, snapshot b, typingPos b).
Proof.
  intros Hready Hc Hr. unfold clearEffect.
  rewrite (getImageData_ready b Hready). eexists. split; [reflexivity|].
  cbn [canvas history isDrawing startPos snapshot typingPos].
  repeat split. unfold pixel_at. simpl.
  apply Nat.ltb_lt in Hc as Hcb. apply Nat.ltb_lt in Hr as Hrb.
  rewrite Hcb, Hrb. simpl. rewrite list_lookup_fmap.
  destruct Hready as (_ & _ & Hwf). unfold wf_image in Hwf.
  destruct (lookup_lt_is_Some_2 (img_data (bitmap (canvas b)))
              (row * img_width (bitmap (canvas b)) + col))
    as [old ->]; [nia|]. done.
Qed.


(** A resize to the size the surface already has keeps every pixel. *)
Theorem resize_same_size_keeps_bitmap w h b :
  surface_ready b -> dims (bitmap (canvas b)) = (w, h) ->
  bitmap (canvas (resize w h b)) = bitmap (canvas b).
Proof.
  intros Hready [= Hw Hh]. unfold resize.
  pose proof (getImageData_ready b Hready) as Hget.
  destruct Hready as (Hpw & Hph & Hwf).
  apply Nat.ltb_lt in Hpw as ->. apply Nat.ltb_lt in Hph as ->.
  cbn [andb]. rewrite Hget.
  cbn [set_canvas canvas putImageData with_bitmap bitmap set_height
       set_width blank img_width img_height].
  apply blit_same_size; [done|apply blank_wf|done..].
Qed.

(** Every resize gives a new context: default drawing state, empty path.  A
    pen or eraser stroke that goes on after a resize is painted in that
    state, in particular with source-over compositing also for the eraser,
    and its path starts again at the point of the move. *)
Theorem resize_resets_context w h tool settings p b :
  state (canvas (resize w h b)) = default_state
  /\ path (canvas (resize w h b)) = []
  /\ (is_freehand tool = true -> isDrawing b = true -> startPos b <> None ->
      state (canvas (draw tool settings p (resize w h b))) = default_state
      /\ path (canvas (draw tool settings p (resize w h b)))
         = [LineTo (x p) (y p)]).
Proof.
  assert (state (canvas (resize w h b)) = default_state
          /\ path (canvas (resize w h b)) = []) as [Hst Hpath].
  { unfold resize.
    by destruct ((0 <? img_width (bitmap (canvas b)))
                 && (0 <? img_height (bitmap (canvas b)))),
       (getImageData (canvas b)). }
  split; [done|]. split; [done|].
  intros Htool Hd Ha. unfold draw.
  change (isDrawing (resize w h b)) with (isDrawing b).
  change (startPos (resize w h b)) with (startPos b).
  rewrite Hd. destruct (startPos b) as [a|]; [|done].
  assert (ToolType_eqb tool pen || ToolType_eqb tool eraser = true) as ->
    by by destruct tool.
  cbn [set_canvas canvas stroke paint with_bitmap state path lineTo
       add_segment].
  by rewrite Hst, Hpath.
Qed.

(** Two resizes in a row: what the first one has cut off does not come back
    with the second one. *)
Theorem resize_twice_loses_cut_off w1 h1 w2 h2 b col row :
  col < w2 -> row < h2 ->
  pixel_at (bitmap (canvas (resize w2 h2 (resize w1 h1 b)))) col row
  = Some (if (col <? w1) && (row <? h1)
          then default transparent (pixel_at (bitmap (canvas b)) col row)
          else transparent).
Proof.
  intros Hc Hr. rewrite (resize_pixel_at w2 h2) by done. f_equal.
  destruct ((col <? w1) && (row <? h1)) eqn:Hin.
  - apply andb_true_iff in Hin as [Hc1 Hr1].
    apply Nat.ltb_lt in Hc1, Hr1.
    by rewrite (resize_pixel_at w1 h1).
  - unfold pixel_at at 1.
    rewrite (f_equal fst (resize_dims w1 h1 b) : img_width _ = w1).
    rewrite (f_equal snd (resize_dims w1 h1 b) : img_height _ = h1).
    by rewrite Hin.
Qed.
End Surface.

(** ** Strokes and shapes *)

Section Strokes.
Context {num : Type} `{!JsNumber num} `{!Rasterizer num}.
Implicit Types (b : Board num) (tool : ToolType)
  (settings : DrawingSettings num) (p q down : Point num)
  (moves : list (Point num)) (st : DrawState num).

Lemma draw_style tool settings st p b :
  ToolType_eqb tool text = false ->
  state (canvas b) = session_style tool settings st ->
  state (canvas (draw tool settings p b)) = session_style tool settings st.
Proof.
  intros Htool Hst. unfold draw.
  destruct (isDrawing b), (startPos b); try done.
  destruct (ToolType_eqb tool pen || ToolType_eqb tool eraser) eqn:Hpe;
    [done|].
  destruct (snapshot b); [|done].
  cbn [set_canvas canvas]. rewrite drawShape_state.
  destruct tool; try done; simpl; by rewrite Hst.
Qed.

(** The drawing state of a session, spelled out. *)
Lemma session_state tool settings down moves b :
  surface_ready b -> ToolType_eqb tool text = false ->
  state (canvas (session tool settings down moves b))
  = session_style tool settings (state (canvas b)).
Proof.
  intros Hready Htool. unfold session, startDrawing.
  rewrite Htool, (getImageData_ready b Hready). cbn [board_of].
  match goal with
  | |- context [foldl ?f ?b0 moves] =>
      assert (state (canvas b0)
              = session_style tool settings (state (canvas b))) as Hb0
        by (by destruct tool);
      generalize dependent b0
  end.
  induction moves as [|q moves IH]; intros b0 Hb0; simpl; [done|].
  apply IH. by apply draw_style.
Qed.

Lemma session_frame tool settings down moves b :
  surface_ready b -> ToolType_eqb tool text = false ->
  history (session tool settings down moves b)
  = pushHistory (bitmap (canvas b)) (history b)
  /\ typingPos (session tool settings down moves b) = typingPos b
  /\ isDrawing (session tool settings down moves b) = true
  /\ startPos (session tool settings down moves b) = Some down.
Proof.
  intros Hready Htool. unfold session.
  destruct (startDrawing_begin tool settings down b Hready Htool)
    as (ctx & -> & _).
  match goal with
  | |- context [foldl ?f ?b0 moves] =>
      by destruct (moves_frame tool settings moves b0)
        as (-> & -> & -> & _ & -> & _)
  end.
Qed.

Lemma freehand_moves_path tool settings moves b :
  is_freehand tool = true -> isDrawing b = true -> startPos b <> None ->
  path (canvas (foldl (fun acc q => draw tool settings q acc) b moves))
  = path (canvas b) ++ ((fun q => LineTo (x q) (y q)) <$> moves).
Proof.
  intros Htool. revert b.
  induction moves as [|q moves IH]; intros b Hd Ha; simpl.
  - by rewrite app_nil_r.
  - assert (draw tool settings q b
            = set_canvas (stroke (lineTo (x q) (y q) (canvas b))) b) as ->.
    { unfold draw. rewrite Hd. destruct (startPos b); [|done].
      by destruct tool. }
    rewrite IH by done. cbn [set_canvas canvas stroke paint with_bitmap path
                             lineTo add_segment].
    by rewrite <- app_assoc.
Qed.

(** The path of a pen or eraser stroke goes from the point of pointer-down
    through the points of the moves, in their order; pointer-up closes it. *)
Theorem freehand_path_follows_pointer tool settings down moves b :
  surface_ready b -> is_freehand tool = true ->
  path (canvas (session tool settings down moves b))
  = MoveTo (x down) (y down) :: ((fun q => LineTo (x q) (y q)) <$> moves)
  /\ path (canvas (perform (Drag tool settings down moves) b))
     = MoveTo (x down) (y down) :: ((fun q => LineTo (x q) (y q)) <$> moves)
       ++ [ClosePath].
Proof.
  intros Hready Htool.
  assert (ToolType_eqb tool text = false) as Htext by by destruct tool.
  assert (path (canvas (session tool settings down moves b))
          = MoveTo (x down) (y down)
            :: ((fun q => LineTo (x q) (y q)) <$> moves)) as Hpath.
  { unfold session, startDrawing.
    rewrite Htext, (getImageData_ready b Hready). cbn [board_of].
    rewrite freehand_moves_path by done.
    by destruct tool. }
  split; [done|].
  destruct (session_frame tool settings down moves b Hready Htext)
    as (_ & _ & Hd & _).
  unfold perform, stopDrawing. rewrite Hd.
  cbn [canvas closePath add_segment path]. by rewrite Hpath.
Qed.

(** From pointer-down to the last move of a session the line caps and joins
    are round and the dash pattern is that of the tool: three and two line
    widths for the dashed line, none for every other tool. *)
Theorem session_line_style tool settings down moves b :
  surface_ready b -> tool <> text ->
  let st := state (canvas (session tool settings down moves b)) in
  lineCap st = cap_round
  /\ lineJoin st = join_round
  /\ (tool = dashed ->
      lineDash st = [num_mul (width settings) (lit 3);
                     num_mul (width settings) (lit 2)])
  /\ (tool <> dashed -> lineDash st = []).
Proof.
  intros Hready Htool st.
  assert (ToolType_eqb tool text = false) as Htext by by destruct tool.
  subst st. rewrite session_state by done.
  repeat split; [by intros ->|]. by destruct tool.
Qed.

(** Colour and width of a pen or eraser stroke are those of pointer-down:
    moves made under other settings paint like moves under the settings of
    pointer-down. *)
Theorem freehand_style_fixed_at_pointer_down tool settings down
    (moves : list (DrawingSettings num * Point num)) b :
  is_freehand tool = true ->
  moves_under tool moves (board_of (startDrawing tool settings down b))
  = session tool settings down (moves.*2) b.
Proof.
  intros Htool. unfold moves_under, session.
  generalize (board_of (startDrawing tool settings down b)).
  induction moves as [|[s q] moves IH]; intros b0; simpl; [done|].
  rewrite <- IH. f_equal. unfold draw.
  destruct (isDrawing b0), (startPos b0); try done.
  by destruct tool.
Qed.

(** A shape is drawn under the settings of its last move: a preview under
    new settings leaves the board that a session under these settings from
    the start would have left. *)
Theorem shape_takes_settings_of_last_move tool settings settings' down moves
    p b :
  surface_ready b -> is_shape tool = true ->
  draw tool settings' p (session tool settings down moves b)
  = session tool settings' down [p] b.
Proof.
  intros Hready Htool.
  pose proof (is_shape_not_text tool Htool) as Htext.
  destruct (session_previewing tool settings down moves b Hready Htool)
    as (_ & Hd & Ha & Hs & _ & Hdims & Hwf & Hwfs).
  destruct (session_previewing tool settings' down [] b Hready Htool)
    as (Hst' & Hs').
  pose proof (session_state tool settings' down [] b Hready Htext) as Hexp.
  change (session tool settings' down [] b)
    with (board_of (startDrawing tool settings' down b)) in Hexp.
  rewrite Hexp in Hst', Hs'.
  destruct (session_frame tool settings down moves b Hready Htext)
    as (Hh & Ht & _).
  destruct (session_frame tool settings' down [] b Hready Htext)
    as (Hh' & Ht' & _).
  change (session tool settings' down [p] b)
    with (draw tool settings' p (session tool settings' down [] b)).
  destruct (previewing_draw tool settings' _ _ _ p _ Htool Hst' Hs')
    as (-> & _).
  rewrite (draw_shape tool settings' p _ down _ Hd Ha Hs Htool).
  assert (previewStyle tool settings'
            (beginPath (putImageData (bitmap (canvas b))
                          (canvas (session tool settings down moves b))))
          = mkCanvas (bitmap (canvas b))
              (session_style tool settings' (state (canvas b))) []) as ->.
  { apply canvas_eq.
    - rewrite previewStyle_bitmap. cbn [beginPath bitmap].
      by apply putImageData_same_size.
    - transitivity
        (state (previewStyle tool settings'
                  (mkCanvas (bitmap (canvas b))
                     (session_style tool settings (state (canvas b))) []))).
      + apply previewStyle_state.
        cbn [beginPath putImageData with_bitmap state].
        by rewrite (session_state tool settings down moves b Hready Htext).
      + by destruct tool.
    - by rewrite previewStyle_path. }
  unfold set_canvas. by rewrite Hd, Ha, Hs, Hh, Ht, Hh', Ht'.
Qed.

(** After pointer-up the moves paint nothing, a second pointer-up does
    nothing, and pointer-up itself leaves the pixels as the last move has
    left them. *)
Theorem released_pointer_is_inert tool settings p b :
  draw tool settings p (stopDrawing b) = stopDrawing b
  /\ stopDrawing (stopDrawing b) = stopDrawing b
  /\ bitmap (canvas (stopDrawing b)) = bitmap (canvas b)
  /\ history (stopDrawing b) = history b.
Proof.
  assert (isDrawing (stopDrawing b) = false) as Hd.
  { unfold stopDrawing. by destruct (isDrawing b) eqn:Hb. }
  repeat split.
  - unfold draw. by rewrite Hd.
  - unfold stopDrawing at 1. by rewrite Hd.
  - unfold stopDrawing. by destruct (isDrawing b).
  - unfold stopDrawing. by destruct (isDrawing b).
Qed.

(** What a shape drag commits is its last preview: the surface of
    pointer-down with the one outline from the anchor to the last point on
    it; no earlier preview frame is left. *)
Theorem committed_shape_is_last_preview tool settings down moves p b :
  surface_ready b -> is_shape tool = true ->
  bitmap (canvas (perform (Drag tool settings down (moves ++ [p])) b))
  = bitmap (drawShape tool down p
              (mkCanvas (bitmap (canvas b))
                 (session_style tool settings (state (canvas b))) [])).
Proof.
  intros Hready Htool.
  pose proof (is_shape_not_text tool Htool) as Htext.
  destruct (session_previewing tool settings down moves b Hready Htool)
    as (Hst & Hs).
  pose proof (session_state tool settings down [] b Hready Htext) as Hexp.
  change (session tool settings down [] b)
    with (board_of (startDrawing tool settings down b)) in Hexp.
  rewrite Hexp in Hst, Hs.
  unfold perform.
  destruct (stopDrawing_frame (session tool settings down (moves ++ [p]) b))
    as (_ & -> & _).
  rewrite session_snoc.
  by destruct (previewing_draw tool settings _ _ _ p _ Htool Hst Hs)
    as (-> & _).
Qed.

(** A press and release without a move in between paints nothing, with any
    drawing tool, and still pushes a snapshot: the next undo changes no
    pixel. *)
Theorem click_without_move_only_pushes tool settings down b :
  surface_ready b -> tool <> text ->
  bitmap (canvas (perform (Drag tool settings down []) b))
  = bitmap (canvas b)
  /\ history (perform (Drag tool settings down []) b)
     = pushHistory (bitmap (canvas b)) (history b).
Proof.
  intros Hready Htool.
  assert (ToolType_eqb tool text = false) as Htext by by destruct tool.
  unfold perform, session. cbn [foldl].
  destruct (startDrawing_begin tool settings down b Hready Htext)
    as (ctx & -> & Hbm & _).
  cbn [board_of].
  match goal with
  | |- context [stopDrawing ?b0] =>
      destruct (stopDrawing_frame b0) as (-> & -> & _)
  end.
  by cbn [canvas history].
Qed.
End Strokes.

(** ** Text entries and the tool bar *)

Section Entries.
Context {num : Type} `{!JsNumber num} `{!Rasterizer num}.
Implicit Types (b : Board num) (a : App num) (t : ToolType)
  (settings : DrawingSettings num) (txt : JsString).


End Entries.

(** ** The random picker *)

Section Spin.
Context {num : Type}.
Implicit Types (pk : Picker num) (draws : list num) (drawn : num).

Lemma ticks_snoc draws drawn pk :
  ticks (draws ++ [drawn]) pk = tick drawn (ticks draws pk).
Proof. unfold ticks. by rewrite foldl_snoc. Qed.

Lemma ticks_running draws pk counter :
  interval pk = Some counter -> counter + length draws <= maxIterations ->
  interval (ticks draws pk) = Some (counter + length draws)
  /\ isSpinning (ticks draws pk) = isSpinning pk
  /\ pickedNumber (ticks draws pk)
     = match last draws with
       | Some drawn => Some drawn
       | None => pickedNumber pk
       end.
Proof.
  revert pk counter.
  induction draws as [|drawn draws IH] using rev_ind; intros pk counter Hi Hle.
  - simpl. by rewrite Nat.add_0_r.
  - rewrite length_app in *. cbn [length] in *.
    rewrite ticks_snoc, last_snoc.
    destruct (IH pk counter Hi) as (Hi' & Hs' & _); [lia|].
    unfold tick. rewrite Hi'.
    assert ((maxIterations <? S (counter + length draws)) = false) as ->
      by (apply Nat.ltb_ge; lia).
    cbn [interval isSpinning pickedNumber].
    repeat split; [f_equal; lia|done].
Qed.

(** A spin draws exactly twenty-one numbers: while fewer have been drawn
    the picker is spinning and shows the latest one; the twenty-first stops
    the spin and stays as the result, and the interval is cleared. *)
Theorem spin_draws_twenty_one pk draws drawn :
  isSpinning pk = false -> length draws = maxIterations ->
  let spinning := ticks draws (handleRandomPick pk) in
  isSpinning spinning = true
  /\ (draws <> [] -> pickedNumber spinning = last draws)
  /\ ticks (draws ++ [drawn]) (handleRandomPick pk)
     = mkPicker false (Some drawn) None.
Proof.
  intros Hidle Hlen spinning.
  assert (handleRandomPick pk = mkPicker true (pickedNumber pk) (Some 0))
    as Hstart by (unfold handleRandomPick; by rewrite Hidle).
  destruct (ticks_running draws (handleRandomPick pk) 0) as (Hi & Hs & Hp).
  { by rewrite Hstart. }
  { simpl. lia. }
  split; [subst spinning; by rewrite Hs, Hstart|]. split.
  - intros Hne. subst spinning. rewrite Hp.
    destruct (last draws) eqn:Hl; [done|]. by apply last_None in Hl.
  - rewrite ticks_snoc. unfold tick. rewrite Hi.
    simpl. rewrite Hlen. done.
Qed.

End Spin.

(** ** The payload of a data URL *)

Lemma split_not_nil sep s : split sep s <> [].
Proof.
  destruct s as [|c s]; simpl; [done|].
  destruct (c =? sep)%N; [done|]. by destruct (split sep s).
Qed.

Lemma split_no_separator sep s :
  Forall (fun c => c <> sep) s -> split sep s = [s].
Proof.
  induction 1 as [|c s Hc _ IH]; simpl; [done|].
  apply N.eqb_neq in Hc as ->. by rewrite IH.
Qed.

Lemma split_app_separator sep s rest :
  Forall (fun c => c <> sep) s ->
  split sep (s ++ sep :: rest) = s :: split sep rest.
Proof.
  induction 1 as [|c s Hc _ IH]; simpl.
  - by rewrite N.eqb_refl.
  - apply N.eqb_neq in Hc as ->. by rewrite IH.
Qed.

(** Every segment of a split is free of the separator. *)
Lemma split_segments sep s :
  Forall (Forall (fun c => c <> sep)) (split sep s).
Proof.
  induction s as [|c s IH]; simpl; [by repeat constructor|].
  destruct (c =? sep)%N eqn:Hc.
  - by constructor.
  - apply N.eqb_neq in Hc.
    destruct (split sep s) as [|seg segs]; [by repeat constructor|].
    apply Forall_cons in IH as [Hseg Hsegs].
    constructor; [by constructor|done].
Qed.

(** The header of a data URL is stripped: of a string made of a header
    without comma, a comma and a payload that is not empty and has no
    comma, the payload is kept; the same when more follows after a further
    comma, which is dropped.  A string without comma is kept whole. *)
Theorem cleanBase64_strips_header (header payload rest : JsString) :
  Forall (fun c => c <> comma) header ->
  Forall (fun c => c <> comma) payload ->
  payload <> [] ->
  cleanBase64 (header ++ comma :: payload) = payload
  /\ cleanBase64 (header ++ comma :: payload ++ comma :: rest) = payload
  /\ cleanBase64 payload = payload.
Proof.
  intros Hh Hp Hne. unfold cleanBase64. repeat split.
  - rewrite split_app_separator, split_no_separator by done. simpl.
    by destruct payload.
  - rewrite !split_app_separator by done. simpl. by destruct payload.
  - by rewrite split_no_separator.
Qed.

(** Cleaning twice is cleaning once; and the result either has no comma or
    is the whole input, which happens when nothing follows the first comma
    up to the next one. *)
Theorem cleanBase64_idempotent (s : JsString) :
  cleanBase64 (cleanBase64 s) = cleanBase64 s
  /\ (Forall (fun c => c <> comma) (cleanBase64 s) \/ cleanBase64 s = s).
Proof.
  assert (Forall (fun c => c <> comma) (cleanBase64 s) \/ cleanBase64 s = s)
    as Hcases.
  { unfold cleanBase64.
    destruct (split comma s !! 1) as [seg|] eqn:Hseg; [|by right].
    destruct (truthy seg); [|by right]. left.
    pose proof (split_segments comma s) as Hall.
    by apply (Forall_lookup_1 _ _ _ _ Hall Hseg). }
  split; [|done]. destruct Hcases as [Hfree|Heq]; [|congruence].
  unfold cleanBase64 at 1. by rewrite split_no_separator.
Qed.

(* ------------------------------------------------------------------ *)
(** * Concrete runs of the further properties *)

Ltac no_comma := vm_compute; repeat (constructor; [discriminate|]); constructor.

(** A pen stroke, a clear and a text commit, then three undos. *)
Lemma undo_all_restores_witness :
  let gs := [Drag pen white (pt 1 1) [pt 2 2]; Clear;
             TypeText white (pt 1 1) letter_A] in
  let b' := Nat.iter 3 undo (perform_all gs small_board) in
  surface_ready small_board
  /\ Forall (fun g => committing g = true) gs
  /\ length gs <= 20
  /\ length (history small_board) <= 20
  /\ bitmap (canvas b') = bitmap (canvas small_board)
  /\ history b' = recent (20 - length gs) (history small_board)
  /\ (length (history small_board) + length gs <= 20 ->
      history b' = history small_board).
Proof.
  intros gs b'.
  assert (surface_ready small_board) as Hready by small_ready.
  assert (Forall (fun g => committing g = true) gs) as Hall
    by (repeat constructor).
  assert (length gs <= 20) as Hk by (simpl; lia).
  assert (length (history small_board) <= 20) as Hlen by (simpl; lia).
  exact (conj Hready (conj Hall (conj Hk (conj Hlen
           (undo_all_restores gs small_board Hready Hall Hk Hlen))))).
Defined.

(** Twenty-one clears, then twenty-five undos. *)
Lemma undo_depth_exhausted_witness :
  let gs := replicate 21 (@Clear Term) in
  let b' := Nat.iter 25 undo (perform_all gs small_board) in
  surface_ready small_board
  /\ Forall (fun g => committing g = true) gs
  /\ 20 <= length gs
  /\ 20 <= 25
  /\ history b' = []
  /\ surfaces_before gs small_board !! (length gs - 20)
     = Some (bitmap (canvas b')).
Proof.
  intros gs b'.
  assert (surface_ready small_board) as Hready by small_ready.
  assert (Forall (fun g => committing g = true) gs) as Hall
    by (simpl; repeat constructor).
  assert (20 <= length gs) as Hlen by (simpl; lia).
  assert (20 <= 25) as Hn by lia.
  exact (conj Hready (conj Hall (conj Hlen (conj Hn
           (undo_depth_exhausted gs small_board 25 Hready Hall Hlen Hn))))).
Defined.

(** Undo of a 2 by 2 snapshot on the surface grown to 4 by 3, at a pixel
    that the snapshot does not cover. *)
Lemma undo_writes_snapshot_at_origin_witness :
  last (history grown_board) = Some (blank 2 2)
  /\ wf_image (bitmap (canvas grown_board))
  /\ 3 < img_width (bitmap (canvas grown_board))
  /\ 2 < img_height (bitmap (canvas grown_board))
  /\ dims (bitmap (canvas (undo grown_board)))
     = dims (bitmap (canvas grown_board))
  /\ pixel_at (bitmap (canvas (undo grown_board))) 3 2
     = match pixel_at (blank 2 2) 3 2 with
       | Some px => Some px
       | None => pixel_at (bitmap (canvas grown_board)) 3 2
       end.
Proof.
  assert (last (history grown_board) = Some (blank 2 2)) as Hlast
    by reflexivity.
  assert (wf_image (bitmap (canvas grown_board))) as Hwf by reflexivity.
  assert (3 < img_width (bitmap (canvas grown_board))) as Hc
    by (simpl; lia).
  assert (2 < img_height (bitmap (canvas grown_board))) as Hr
    by (simpl; lia).
  exact (conj Hlast (conj Hwf (conj Hc (conj Hr
           (undo_writes_snapshot_at_origin grown_board (blank 2 2) 3 2
              Hlast Hwf Hc Hr))))).
Defined.

(** Undo in the middle of a rectangle drag. *)
Lemma undo_during_preview_repainted_witness :
  let s := session rect white (pt 1 1) [pt 2 2] small_board in
  surface_ready small_board
  /\ is_shape rect = true
  /\ canvas (draw rect white (pt 3 2) (undo s))
     = canvas (draw rect white (pt 3 2) s)
  /\ history (draw rect white (pt 3 2) (undo s))
     = recent 19 (history small_board).
Proof.
  intros s.
  assert (surface_ready small_board) as Hready by small_ready.
  assert (is_shape rect = true) as Htool by reflexivity.
  exact (conj Hready (conj Htool
           (undo_during_preview_repainted rect white (pt 1 1) [pt 2 2]
              (pt 3 2) small_board Hready Htool))).
Defined.

(** Clear after a pen stroke, at the pixel under the stroke. *)
Lemma clear_makes_transparent_witness :
  surface_ready stroke_board
  /\ 2 < img_width (bitmap (canvas stroke_board))
  /\ 2 < img_height (bitmap (canvas stroke_board))
  /\ pixel_at (bitmap (canvas stroke_board)) 2 2 = Some (RGBA 255 255 255 255)
  /\ exists b',
       clearEffect stroke_board = Done b'
       /\ pixel_at (bitmap (canvas b')) 2 2 = Some transparent
       /\ dims (bitmap (canvas b')) = dims (bitmap (canvas stroke_board))
       /\ state (canvas b') = state (canvas stroke_board)
       /\ path (canvas b') = path (canvas stroke_board)
       /\ history b'
          = pushHistory (bitmap (canvas stroke_board)) (history stroke_board)
       /\ (isDrawing b', startPos b', snapshot b', typingPos b')
          = (isDrawing stroke_board, startPos stroke_board,
             snapshot stroke_board, typingPos stroke_board).
Proof.
  assert (surface_ready stroke_board) as Hready by small_ready.
  assert (2 < img_width (bitmap (canvas stroke_board))) as Hc
    by (simpl; lia).
  assert (2 < img_height (bitmap (canvas stroke_board))) as Hr
    by (simpl; lia).
  assert (pixel_at (bitmap (canvas stroke_board)) 2 2
          = Some (RGBA 255 255 255 255)) as Hink by reflexivity.
  exact (conj Hready (conj Hc (conj Hr (conj Hink
           (clear_makes_transparent stroke_board 2 2 Hready Hc Hr))))).
Defined.


(** The stroke board resized to the 4 by 3 it has. *)
Lemma resize_same_size_keeps_bitmap_witness :
  surface_ready stroke_board
  /\ dims (bitmap (canvas stroke_board)) = (4, 3)
  /\ bitmap (canvas (resize 4 3 stroke_board)) = bitmap (canvas stroke_board).
Proof.
  assert (surface_ready stroke_board) as Hready by small_ready.
  assert (dims (bitmap (canvas stroke_board)) = (4, 3)) as Hd by reflexivity.
  exact (conj Hready (conj Hd
           (resize_same_size_keeps_bitmap 4 3 stroke_board Hready Hd))).
Defined.

(** An eraser stroke interrupted by a resize. *)
Lemma resize_resets_context_witness :
  let s := session eraser white (pt 1 1) [pt 2 2] stroke_board in
  is_freehand eraser = true
  /\ isDrawing s = true
  /\ startPos s <> None
  /\ globalCompositeOperation (state (canvas s)) = destination_out
  /\ state (canvas (draw eraser white (pt 3 2) (resize 5 5 s)))
     = default_state
  /\ path (canvas (draw eraser white (pt 3 2) (resize 5 5 s)))
     = [LineTo (x (pt 3 2)) (y (pt 3 2))].
Proof.
  intros s.
  assert (is_freehand eraser = true) as Htool by reflexivity.
  assert (isDrawing s = true) as Hd by reflexivity.
  assert (startPos s <> None) as Ha by discriminate.
  assert (globalCompositeOperation (state (canvas s)) = destination_out)
    as Hmode by reflexivity.
  exact (conj Htool (conj Hd (conj Ha (conj Hmode
           (proj2 (proj2 (resize_resets_context 5 5 eraser white (pt 3 2) s))
              Htool Hd Ha))))).
Defined.

(** The stroke board shrunk to 2 by 2 and grown back: the ink at (2,2) is
    gone. *)
Lemma resize_twice_loses_cut_off_witness :
  2 < 4
  /\ 2 < 3
  /\ pixel_at (bitmap (canvas stroke_board)) 2 2 = Some (RGBA 255 255 255 255)
  /\ pixel_at (bitmap (canvas (resize 4 3 (resize 2 2 stroke_board)))) 2 2
     = Some (if (2 <? 2) && (2 <? 2)
             then default transparent
                    (pixel_at (bitmap (canvas stroke_board)) 2 2)
             else transparent).
Proof.
  assert (2 < 4) as Hc by lia.
  assert (2 < 3) as Hr by lia.
  assert (pixel_at (bitmap (canvas stroke_board)) 2 2
          = Some (RGBA 255 255 255 255)) as Hink by reflexivity.
  exact (conj Hc (conj Hr (conj Hink
           (resize_twice_loses_cut_off 2 2 4 3 stroke_board 2 2 Hc Hr)))).
Defined.

(** A pen stroke through two points. *)
Lemma freehand_path_follows_pointer_witness :
  let moves := [pt 2 2; pt 3 2] in
  surface_ready small_board
  /\ is_freehand pen = true
  /\ path (canvas (session pen white (pt 1 1) moves small_board))
     = MoveTo (x (pt 1 1)) (y (pt 1 1))
       :: ((fun q => LineTo (x q) (y q)) <$> moves)
  /\ path (canvas (perform (Drag pen white (pt 1 1) moves) small_board))
     = MoveTo (x (pt 1 1)) (y (pt 1 1))
       :: ((fun q => LineTo (x q) (y q)) <$> moves) ++ [ClosePath].
Proof.
  intros moves.
  assert (surface_ready small_board) as Hready by small_ready.
  assert (is_freehand pen = true) as Htool by reflexivity.
  exact (conj Hready (conj Htool
           (freehand_path_follows_pointer pen white (pt 1 1) moves
              small_board Hready Htool))).
Defined.

(** A dashed line in red at width 8. *)
Lemma session_line_style_witness :
  let st :=
    state (canvas (session dashed red_wide (pt 1 1) [pt 2 2] small_board)) in
  surface_ready small_board
  /\ dashed <> text
  /\ lineCap st = cap_round
  /\ lineJoin st = join_round
  /\ (dashed = dashed ->
      lineDash st = [num_mul (width red_wide) (lit 3);
                     num_mul (width red_wide) (lit 2)])
  /\ (dashed <> dashed -> lineDash st = []).
Proof.
  intros st.
  assert (surface_ready small_board) as Hready by small_ready.
  assert (dashed <> text) as Htool by discriminate.
  exact (conj Hready (conj Htool
           (session_line_style dashed red_wide (pt 1 1) [pt 2 2] small_board
              Hready Htool))).
Defined.

(** A pen stroke begun in white whose second move happens under red. *)
Lemma freehand_style_fixed_at_pointer_down_witness :
  let moves := [(white, pt 2 2); (red_wide, pt 3 2)] in
  is_freehand pen = true
  /\ moves_under pen moves (board_of (startDrawing pen white (pt 1 1) small_board))
     = session pen white (pt 1 1) (moves.*2) small_board.
Proof.
  intros moves.
  assert (is_freehand pen = true) as Htool by reflexivity.
  exact (conj Htool
           (freehand_style_fixed_at_pointer_down pen white (pt 1 1) moves
              small_board Htool)).
Defined.

(** A rectangle begun in white whose last move happens under red. *)
Lemma shape_takes_settings_of_last_move_witness :
  surface_ready small_board
  /\ is_shape rect = true
  /\ draw rect red_wide (pt 3 2) (session rect white (pt 1 1) [pt 2 2] small_board)
     = session rect red_wide (pt 1 1) [pt 3 2] small_board.
Proof.
  assert (surface_ready small_board) as Hready by small_ready.
  assert (is_shape rect = true) as Htool by reflexivity.
  exact (conj Hready (conj Htool
           (shape_takes_settings_of_last_move rect white red_wide (pt 1 1)
              [pt 2 2] (pt 3 2) small_board Hready Htool))).
Defined.

(** A line dragged over the stroke board through two points. *)
Lemma committed_shape_is_last_preview_witness :
  surface_ready stroke_board
  /\ is_shape line = true
  /\ bitmap (canvas (perform (Drag line white (pt 0 0) ([pt 1 2] ++ [pt 3 0]))
                       stroke_board))
     = bitmap (drawShape line (pt 0 0) (pt 3 0)
                 (mkCanvas (bitmap (canvas stroke_board))
                    (session_style line white (state (canvas stroke_board)))
                    [])).
Proof.
  assert (surface_ready stroke_board) as Hready by small_ready.
  assert (is_shape line = true) as Htool by reflexivity.
  exact (conj Hready (conj Htool
           (committed_shape_is_last_preview line white (pt 0 0) [pt 1 2]
              (pt 3 0) stroke_board Hready Htool))).
Defined.

(** A click with the pen. *)
Lemma click_without_move_only_pushes_witness :
  surface_ready stroke_board
  /\ pen <> text
  /\ bitmap (canvas (perform (Drag pen white (pt 0 0) []) stroke_board))
     = bitmap (canvas stroke_board)
  /\ history (perform (Drag pen white (pt 0 0) []) stroke_board)
     = pushHistory (bitmap (canvas stroke_board)) (history stroke_board).
Proof.
  assert (surface_ready stroke_board) as Hready by small_ready.
  assert (pen <> text) as Htool by discriminate.
  exact (conj Hready (conj Htool
           (click_without_move_only_pushes pen white (pt 0 0) stroke_board
              Hready Htool))).
Defined.


(** A spin whose draws are 1 to 20 and then 7. *)
Lemma spin_draws_twenty_one_witness :
  let pk := mkPicker false None None in
  let spinning := ticks (seq 1 20) (handleRandomPick pk) in
  isSpinning pk = false
  /\ length (seq 1 20) = maxIterations
  /\ isSpinning spinning = true
  /\ (seq 1 20 <> [] -> pickedNumber spinning = last (seq 1 20))
  /\ ticks (seq 1 20 ++ [7]) (handleRandomPick pk)
     = mkPicker false (Some 7) None.
Proof.
  intros pk spinning.
  assert (isSpinning pk = false) as Hidle by reflexivity.
  assert (length (seq 1 20) = maxIterations) as Hlen by reflexivity.
  exact (conj Hidle (conj Hlen
           (spin_draws_twenty_one pk (seq 1 20) 7 Hidle Hlen))).
Defined.

(** The data URL of a PNG. *)
Lemma cleanBase64_strips_header_witness :
  Forall (fun c => c <> comma) data_header
  /\ Forall (fun c => c <> comma) data_payload
  /\ data_payload <> []
  /\ cleanBase64 (data_header ++ comma :: data_payload) = data_payload
  /\ cleanBase64 (data_header ++ comma :: data_payload ++ comma :: units "x")
     = data_payload
  /\ cleanBase64 data_payload = data_payload.
Proof.
  assert (Forall (fun c => c <> comma) data_header) as Hh by no_comma.
  assert (Forall (fun c => c <> comma) data_payload) as Hp by no_comma.
  assert (data_payload <> []) as Hne by discriminate.
  exact (conj Hh (conj Hp (conj Hne
           (cleanBase64_strips_header data_header data_payload (units "x")
              Hh Hp Hne)))).
Defined.

(** A pointer-down with the pen on the small application. *)
Lemma step_push_witness :
  length (history (board small_app))
  < length (history (board (step (PointerDown (pt 1 1)) small_app)))
  /\ currentTool small_app <> text.
Proof.
  assert (length (history (board small_app))
          < length (history (board (step (PointerDown (pt 1 1)) small_app))))
    as Hlt by (simpl; lia).
  exact (conj Hlt (step_push (PointerDown (pt 1 1)) small_app Hlt)).
Defined.
